(** * pymc3/theanof.py: differentiation, flattening and the generator bridge

    A shallow embedding of [pymc3/theanof.py].  Theano graphs are first-order
    terms ([expr]); Python object identity is an explicit identifier carried
    by every variable node; dictionaries and sets are stdpp's [gmap] and
    [gset]; allocation of new graph nodes threads a counter; code that can
    raise returns a [result]. *)

From stdpp Require Import base decidable countable list strings gmap fin_maps fin_sets.
From Stdlib Require Import ZArith Lia.

Set Default Proof Using "Type".
Set Warnings "-register-all".

(** ** Python values *)

(** Exceptions the module raises or lets through. *)
Inductive exn :=
| ValueError (msg : string)
| StopIteration
| KeyError (key : string).

Inductive result (A : Type) :=
| OK (a : A)
| Raise (e : exn).
Arguments OK {A} a.
Arguments Raise {A} e.

Definition is_OK {A} (r : result A) : bool :=
  match r with OK _ => true | Raise _ => false end.

(** A numpy dtype is named by its string, as in [dtype='float32']. *)
Abbreviation dtype := string.

(** One cell of an array: a number, or the not-a-number marker.  The numeric
    payload is not interpreted anywhere in this module. *)
Inductive cell :=
| Num (z : Z)
| NaN.

Record ndarray := mk_ndarray {
  arr_dtype : dtype;
  arr_shape : list nat;
  arr_data : list cell
}.

(** [theano.tensor.TensorType]: a dtype and a broadcastable pattern, whose
    length is the number of dimensions. *)
Record TensorType := mk_TensorType {
  tt_dtype : dtype;
  broadcastable : list bool
}.

Definition ndim (t : TensorType) : nat := length (broadcastable t).

(** A [TensorVariable] without owner: a free input of a graph.  [vid] is the
    identity of the Python object; two nodes may agree on every other field
    and still be different nodes.  [dshape] is the attribute pymc3 puts on
    the variables of a model. *)
Record TensorVariable := mk_TensorVariable {
  vid : nat;
  name : string;
  ttype : TensorType;
  test_value : ndarray;
  dshape : list nat
}.

Definition var_dtype (v : TensorVariable) : dtype := tt_dtype (ttype v).

(** [dsize]: the number of elements of a variable of shape [dshape]. *)
Definition dsize (v : TensorVariable) : nat := foldr Nat.mul 1 (dshape v).

(** A [TensorSharedVariable], as made by [theano.shared(value, name)]. *)
Record SharedVariable := mk_SharedVariable {
  sid : nat;
  sname : string;
  svalue : ndarray
}.

#[global] Instance exn_eq_dec : EqDecision exn.
Proof. solve_decision. Defined.
#[global] Instance cell_eq_dec : EqDecision cell.
Proof. solve_decision. Defined.
#[global] Instance ndarray_eq_dec : EqDecision ndarray.
Proof. solve_decision. Defined.
#[global] Instance TensorType_eq_dec : EqDecision TensorType.
Proof. solve_decision. Defined.
#[global] Instance TensorVariable_eq_dec : EqDecision TensorVariable.
Proof. solve_decision. Defined.
#[global] Instance SharedVariable_eq_dec : EqDecision SharedVariable.
Proof. solve_decision. Defined.

#[global] Instance cell_countable : Countable cell.
Proof.
  apply (inj_countable' (λ c, match c with Num z => Some z | NaN => None end)
                        (λ o, match o with Some z => Num z | None => NaN end)).
  by intros [].
Defined.
#[global] Instance ndarray_countable : Countable ndarray.
Proof.
  apply (inj_countable' (λ a, (arr_dtype a, arr_shape a, arr_data a))
                        (λ '(d, s, c), mk_ndarray d s c)).
  by intros [].
Defined.
#[global] Instance TensorType_countable : Countable TensorType.
Proof.
  apply (inj_countable' (λ t, (tt_dtype t, broadcastable t))
                        (λ '(d, b), mk_TensorType d b)).
  by intros [].
Defined.
#[global] Instance TensorVariable_countable : Countable TensorVariable.
Proof.
  apply (inj_countable' (λ v, (vid v, name v, ttype v, test_value v, dshape v))
                        (λ '(i, n, t, tv, s), mk_TensorVariable i n t tv s)).
  by intros [].
Defined.

(** ** Theano graphs *)

(** The operations of the Theano API that the module applies.  An [Apply]
    node records the call as the source writes it. *)
Inductive Op :=
| Flatten                          (* tt.flatten(x), x.ravel() *)
| Join (axis : nat)                (* tt.concatenate(xs, axis) *)
| Neg                              (* -x *)
| Zeros (shape : list nat) (dt : dtype)   (* tt.zeros(shape, dtype) *)
| ARange (dt : dtype)              (* tt.arange(n, dtype) *)
| Shape_i (i : nat)                (* x.shape[i] *)
| Subtensor                        (* x[i], i symbolic *)
| SubtensorConst (i : nat)         (* x[i], i a literal *)
| SubtensorSlice (start stop : nat)       (* x[start:stop] *)
| Reshape (shape : list nat)       (* x.reshape(shape) *)
| Cast (dt : dtype)                (* x.astype(dtype) *)
| Elemwise (scalar_op : string)    (* any other elementwise operation *)
| OtherOp (opname : string).       (* any other operation *)

Inductive expr :=
| Var (v : TensorVariable)
| Shared (s : SharedVariable)
| Const (c : ndarray)
| Apply (op : Op) (inputs : list expr).

#[global] Instance Op_eq_dec : EqDecision Op.
Proof. solve_decision. Defined.

#[global] Instance expr_eq_dec : EqDecision expr.
Proof.
  refine (fix go (x y : expr) {struct x} : Decision (x = y) :=
    match x, y with
    | Var v, Var w => cast_if (decide (v = w))
    | Shared s, Shared t => cast_if (decide (s = t))
    | Const c, Const d => cast_if (decide (c = d))
    | Apply o a, Apply p b =>
        cast_if_and (decide (o = p)) (list_eq_dec (dec:=go) a b)
    | _, _ => right _
    end); clear go; intuition congruence.
Defined.
Arguments expr_eq_dec : simpl never.

(** ** The collaborators the module imports

    Theano's graph transformations are taken as they come: the module calls
    them and uses their result as a graph. *)
Class theano_api := {
  (** [tt.grad(cost, wrt, disconnected_inputs='warn')] *)
  tt_grad : expr → TensorVariable → expr;
  (** [theano.map(fn, sequences)]: the outputs and the updates *)
  theano_map : (expr → expr) → expr → expr * list (SharedVariable * expr);
  (** [x.type] *)
  expr_type : expr → TensorType;
  (** [x.tag.test_value] *)
  expr_test_value : expr → ndarray
}.

(** The constant [continuous_types] of [pymc3/vartypes.py]. *)
Class vartypes_api := {
  continuous_types : list dtype
}.

(** Modelled from the spec: [typefilter] of [pymc3/vartypes.py], which is not
    part of the sources at hand: it keeps the variables whose declared type
    is one of the given ones. *)
Definition typefilter (vars : list TensorVariable) (types : list dtype) : list TensorVariable :=
  filter (λ v, var_dtype v ∈ types) vars.

Definition tt_flatten (x : expr) : expr := Apply Flatten [x].
(** The Join node that [tt.concatenate(xs, axis)] makes of a list that is not
    empty. *)
Definition tt_concatenate (xs : list expr) (axis : nat) : expr := Apply (Join axis) xs.
(** [tt.concatenate(xs, axis)] where the list may be empty: Theano refuses
    an empty list. *)
Definition tt_concatenate_call (xs : list expr) (axis : nat) : result expr :=
  match xs with
  | [] => Raise (ValueError "Cannot join an empty list of tensors")
  | _ :: _ => OK (tt_concatenate xs axis)
  end.
Definition tt_zeros (shape : list nat) (dt : dtype) : expr := Apply (Zeros shape dt) [].
Definition tt_neg (x : expr) : expr := Apply Neg [x].
Definition tt_arange (n : expr) (dt : dtype) : expr := Apply (ARange dt) [n].
Definition shape_at (x : expr) (i : nat) : expr := Apply (Shape_i i) [x].
Definition subtensor (x i : expr) : expr := Apply Subtensor [x; i].
Definition subtensor_const (x : expr) (i : nat) : expr := Apply (SubtensorConst i) [x].
Definition subtensor_slice (x : expr) (slc : nat * nat) : expr :=
  Apply (SubtensorSlice slc.1 slc.2) [x].
Definition tt_reshape (x : expr) (shape : list nat) : expr := Apply (Reshape shape) [x].
Definition astype (x : expr) (dt : dtype) : expr := Apply (Cast dt) [x].

(** What is known of a graph's value without evaluating it, for the
    operations whose result does not depend on data. *)
Fixpoint static_shape (e : expr) : option (list nat) :=
  match e with
  | Apply (Zeros shape _) [] => Some shape
  | Apply (Reshape shape) [_] => Some shape
  | Apply Neg [x] => static_shape x
  | Apply (Cast _) [x] => static_shape x
  | _ => None
  end.

Fixpoint static_dtype (e : expr) : option dtype :=
  match e with
  | Var v => Some (var_dtype v)
  | Apply (Zeros _ dt) [] => Some dt
  | Apply (Cast dt) [_] => Some dt
  | Apply Neg [x] => static_dtype x
  | Apply (Reshape _) [x] => static_dtype x
  | _ => None
  end.

(** ** Inputs of a graph *)

(** A Python argument that is one graph or a list (or tuple) of graphs. *)
Inductive pyarg :=
| One (a : expr)
| Many (l : list expr).

Definition makeiter (a : pyarg) : list expr :=
  match a with
  | Many l => l
  | One a => [a]
  end.

(** The nodes without owner below [e], left to right, with repetitions. *)
Fixpoint leaves (e : expr) : list expr :=
  match e with
  | Apply _ args => mjoin (leaves <$> args)
  | _ => [e]
  end.

(** The visited list of a graph search: a node is recorded the first time
    it is met. *)
Definition record_once (seen : list expr) (e : expr) : list expr :=
  if decide (e ∈ seen) then seen else seen ++ [e].

(** [theano.gof.graph.inputs]: a depth-first search from the given
    variables, started from the last one; the nodes without owner in the
    order in which the search first meets them.  The properties below use
    the set of these nodes and its size, not the order. *)
Definition inputs (variable_list : list expr) : list expr :=
  foldl record_once [] (mjoin (leaves <$> reverse variable_list)).

(** [isinstance(v, tt.TensorVariable)]: neither a shared variable nor a
    constant is one. *)
Definition as_TensorVariable (e : expr) : option TensorVariable :=
  match e with
  | Var v => Some v
  | _ => None
  end.

Definition inputvars (a : pyarg) : list TensorVariable :=
  omap as_TensorVariable (inputs (makeiter a)).

(** [theano.clone(x, replace, strict=False)]: every occurrence of a mapped
    variable is replaced; a mapped variable that does not occur is no
    error. *)
Fixpoint clone (x : expr) (replace : gmap TensorVariable expr) : expr :=
  match x with
  | Var v => default x (replace !! v)
  | Apply op args => Apply op ((λ a, clone a replace) <$> args)
  | _ => x
  end.

(** ** State and exceptions *)

(** A computation that reads and changes a state of type [S]. *)
Definition stateful (S A : Type) : Type := S → A * S.

#[global] Instance stateful_ret {S} : MRet (stateful S) := λ A a st, (a, st).

#[global] Instance stateful_bind {S} : MBind (stateful S) :=
  λ A B k m st, let '(a, st') := m st in k a st'.

#[global] Instance result_ret : MRet result := λ A a, OK a.

#[global] Instance result_bind : MBind result :=
  λ A B k m, match m with OK a => k a | Raise e => Raise e end.

(** ** Derivatives *)

(** The arguments of a call of a memoized function, as the key of its
    cache. *)
Abbreviation memo_key := (expr * option (list TensorVariable))%type.

(** The dictionary [obj.cache] of a memoized function, latest entry
    first. *)
Abbreviation memo_cache := (list (memo_key * expr)).

Fixpoint cache_get (cache : memo_cache) (key : memo_key) : option expr :=
  match cache with
  | [] => None
  | (key', r) :: cache' => if decide (key = key') then Some r else cache_get cache' key
  end.

(** The caches of the four memoized functions of the module. *)
Record memo_caches := mk_memo_caches {
  gradient_cache : memo_cache;
  jacobian_cache : memo_cache;
  hessian_cache : memo_cache;
  hessian_diag_cache : memo_cache
}.

Definition no_caches : memo_caches := mk_memo_caches [] [] [] [].

Definition set_gradient_cache (c : memo_cache) (st : memo_caches) : memo_caches :=
  mk_memo_caches c (jacobian_cache st) (hessian_cache st) (hessian_diag_cache st).
Definition set_jacobian_cache (c : memo_cache) (st : memo_caches) : memo_caches :=
  mk_memo_caches (gradient_cache st) c (hessian_cache st) (hessian_diag_cache st).
Definition set_hessian_cache (c : memo_cache) (st : memo_caches) : memo_caches :=
  mk_memo_caches (gradient_cache st) (jacobian_cache st) c (hessian_diag_cache st).
Definition set_hessian_diag_cache (c : memo_cache) (st : memo_caches) : memo_caches :=
  mk_memo_caches (gradient_cache st) (jacobian_cache st) (hessian_cache st) c.

(** Modelled from the spec: the decorator [memoize] of [pymc3/memoize.py],
    which is not part of the sources at hand.  The decorated function keeps
    a cache keyed by its arguments (the expression and the variables); a
    call with arguments that are in the cache returns the cached result
    rather than building the graph again, and any other call runs the
    function and caches what it returns. *)
Definition memoize (get : memo_caches → memo_cache)
    (set : memo_cache → memo_caches → memo_caches)
    (obj : expr → option (list TensorVariable) → stateful memo_caches expr)
    (f : expr) (vars : option (list TensorVariable)) : stateful memo_caches expr :=
  λ st,
    match cache_get (get st) (f, vars) with
    | Some r => (r, st)
    | None => let '(r, st') := obj f vars st in (r, set (((f, vars), r) :: get st') st')
    end.

Section Differentiation.
Context {Th : theano_api} {Vt : vartypes_api}.

Definition cont_inputs (f : pyarg) : list TensorVariable :=
  typefilter (inputvars f) continuous_types.

(** flat gradient of f wrt v *)
Definition gradient1 (f : expr) (v : TensorVariable) : expr :=
  tt_flatten (tt_grad f v).

Definition empty_gradient : expr := tt_zeros [0] "float32".

(** The function that [gradient] is before it is decorated. *)
Definition gradient_body (f : expr) (vars : option (list TensorVariable)) : expr :=
  let vars := match vars with None => cont_inputs (One f) | Some vars => vars end in
  match vars with
  | _ :: _ => tt_concatenate ((λ v, gradient1 f v) <$> vars) 0
  | [] => empty_gradient
  end.

Definition gradient : expr → option (list TensorVariable) → stateful memo_caches expr :=
  memoize gradient_cache set_gradient_cache (λ f vars, mret (gradient_body f vars)).

(** jacobian of f wrt v *)
Definition jacobian1 (f : expr) (v : TensorVariable) : expr :=
  let f := tt_flatten f in
  let idx := tt_arange (shape_at f 0) "int32" in
  let grad_i := λ i, gradient1 (subtensor f i) v in
  (theano_map grad_i idx).1.

Definition jacobian_body (f : expr) (vars : option (list TensorVariable)) : expr :=
  let vars := match vars with None => cont_inputs (One f) | Some vars => vars end in
  match vars with
  | _ :: _ => tt_concatenate ((λ v, jacobian1 f v) <$> vars) 1
  | [] => empty_gradient
  end.

Definition jacobian : expr → option (list TensorVariable) → stateful memo_caches expr :=
  memoize jacobian_cache set_jacobian_cache (λ f vars, mret (jacobian_body f vars)).

(** The function that [hessian] is before it is decorated: it calls the
    memoized [gradient] and [jacobian]. *)
Definition hessian_body (f : expr) (vars : option (list TensorVariable))
  : stateful memo_caches expr :=
  g ← gradient f vars;
  j ← jacobian g vars;
  mret (tt_neg j).

Definition hessian : expr → option (list TensorVariable) → stateful memo_caches expr :=
  memoize hessian_cache set_hessian_cache hessian_body.

Definition hessian_diag1 (f : expr) (v : TensorVariable) : expr :=
  let g := gradient1 f v in
  let idx := tt_arange (shape_at g 0) "int32" in
  let hess_ii := λ i, subtensor (gradient1 (subtensor g i) v) i in
  (theano_map hess_ii idx).1.

Definition hessian_diag_body (f : expr) (vars : option (list TensorVariable)) : expr :=
  let vars := match vars with None => cont_inputs (One f) | Some vars => vars end in
  match vars with
  | _ :: _ => tt_neg (tt_concatenate ((λ v, hessian_diag1 f v) <$> vars) 0)
  | [] => empty_gradient
  end.

Definition hessian_diag : expr → option (list TensorVariable) → stateful memo_caches expr :=
  memoize hessian_diag_cache set_hessian_diag_cache
    (λ f vars, mret (hessian_diag_body f vars)).

(** A call of one of the memoized functions. *)
Inductive memo_call :=
| call_gradient (f : expr) (vars : option (list TensorVariable))
| call_jacobian (f : expr) (vars : option (list TensorVariable))
| call_hessian (f : expr) (vars : option (list TensorVariable))
| call_hessian_diag (f : expr) (vars : option (list TensorVariable)).

Definition do_call (c : memo_call) : stateful memo_caches expr :=
  match c with
  | call_gradient f vars => gradient f vars
  | call_jacobian f vars => jacobian f vars
  | call_hessian f vars => hessian f vars
  | call_hessian_diag f vars => hessian_diag f vars
  end.

(** The caches after the calls of [history], made in order since the
    module was imported. *)
Definition caches_after (history : list memo_call) : memo_caches :=
  foldl (λ st c, (do_call c st).2) no_caches history.

End Differentiation.

(** ** Allocation of graph nodes *)

(** A computation that creates Python objects: it takes the next unused
    object identity and returns the one unused afterwards. *)
Abbreviation alloc := (stateful nat).

(** [theano.shared(value, name)] *)
Definition theano_shared (value : ndarray) (nm : string) : alloc SharedVariable :=
  λ h, (mk_SharedVariable h nm value, S h).

(** [tensor_type(name)] and the assignment of [tag.test_value] that the
    module makes on the new variable.  A variable made this way has no
    [dshape] attribute; the field, which nothing reads, holds the shape of
    the test value. *)
Definition new_variable (t : TensorType) (nm : string) (tv : ndarray) : alloc TensorVariable :=
  λ h, (mk_TensorVariable h nm t tv (arr_shape tv), S h).

(** ** Shared replacements *)

Record Model := mk_Model {
  model_vars : list TensorVariable
}.

(** The dictionary comprehension of [make_shared_replacements], over the
    variables in the order in which the set yields them. *)
Fixpoint shared_of (othervars : list TensorVariable) (acc : gmap TensorVariable SharedVariable)
  : alloc (gmap TensorVariable SharedVariable) :=
  match othervars with
  | [] => mret acc
  | var :: rest =>
      s ← theano_shared (test_value var) (name var +:+ "_shared");
      shared_of rest (<[var := s]> acc)
  end.

Definition make_shared_replacements (vars : list TensorVariable) (model : Model)
  : alloc (gmap TensorVariable SharedVariable) :=
  let othervars : gset TensorVariable := list_to_set (model_vars model) ∖ list_to_set vars in
  shared_of (elements othervars) ∅.

(** ** Joining the inputs into one vector *)

(** The elements of a list comprehension whose element expression can
    raise: the first exception ends the loop. *)
Fixpoint comprehension {A B} (f : A → result B) (l : list A) : result (list B) :=
  match l with
  | [] => OK []
  | a :: rest =>
      b ← f a;
      bs ← comprehension f rest;
      mret (b :: bs)
  end.

(** A dictionary built from its items in order: a later item with the key
    of an earlier one takes its place. *)
Definition dict_of {K V} `{Countable K} (items : list (K * V)) : gmap K V :=
  foldl (λ d kv, <[kv.1 := kv.2]> d) ∅ items.

(** [d.update(other)]: the entries of [other] win. *)
Definition dict_update {K V} `{Countable K} (d other : gmap K V) : gmap K V :=
  other ∪ d.

Record VarMap := mk_VarMap {
  vm_var : string;
  vm_slc : nat * nat;
  vm_shp : list nat;
  vm_dtyp : dtype
}.

(** Modelled from the spec: [ArrayOrdering] of [pymc3/blocking.py], which is
    not part of the sources at hand.  For each variable of the list, in
    order, one tuple (name, slice, shape, dtype); the slices follow one
    another from 0, each as long as the variable has elements. *)
Fixpoint vmap_from (dim : nat) (vars : list TensorVariable) : list VarMap :=
  match vars with
  | [] => []
  | var :: rest =>
      mk_VarMap (name var) (dim, dim + dsize var) (dshape var) (var_dtype var)
        :: vmap_from (dim + dsize var) rest
  end.

Record ArrayOrdering := mk_ArrayOrdering {
  vmap : list VarMap;
  dimensions : nat
}.

(** Modelled from the spec: the constructor [ArrayOrdering(vars)]; the total
    length is the sum of the numbers of elements of the variables. *)
Definition ArrayOrdering_init (vars : list TensorVariable) : ArrayOrdering :=
  mk_ArrayOrdering (vmap_from 0 vars) (sum_list (dsize <$> vars)).

(** Work around fact that x.reshape(()) doesn't work *)
Definition reshape_t (x : expr) (shape : list nat) : expr :=
  if decide (shape ≠ []) then tt_reshape x shape
  else subtensor_const x 0.

(** [var.ravel()] *)
Definition ravel (x : expr) : expr := tt_flatten x.

(** [{var.name: var for var in vars}] *)
Definition get_var_of (vars : list TensorVariable) : gmap string TensorVariable :=
  dict_of ((λ var, (name var, var)) <$> vars).

(** The items of the comprehension that builds [replace], in order. *)
Definition replace_items (get_var : gmap string TensorVariable) (inarray : expr)
    (vmap : list VarMap) : result (list (TensorVariable * expr)) :=
  comprehension (λ '(mk_VarMap var slc shp dtyp),
    match get_var !! var with
    | Some key => OK (key, astype (reshape_t (subtensor_slice inarray slc) shp) dtyp)
    | None => Raise (KeyError var)
    end) vmap.

Section Join.
Context {Th : theano_api}.

(** The flat input: a new symbolic vector of the type of [joined], or a
    shared variable holding its test value. *)
Definition make_inarray (joined : expr) (make_shared : bool) : alloc expr :=
  if negb make_shared then
    let tensor_type := expr_type joined in
    inarray ← new_variable tensor_type "inarray" (expr_test_value joined);
    mret (Var inarray)
  else
    inarray ← theano_shared (expr_test_value joined) "inarray";
    mret (Shared inarray).

(** The dictionary [replace] as it is when the graphs are cloned. *)
Definition join_replace (vars : list TensorVariable) (shared : gmap TensorVariable expr)
    (inarray : expr) : result (gmap TensorVariable expr) :=
  let ordering := ArrayOrdering_init vars in
  let get_var := get_var_of vars in
  items ← replace_items get_var inarray (vmap ordering);
  let replace := dict_of items in
  mret (dict_update replace shared).

Definition join_nonshared_inputs (xs : list expr) (vars : list TensorVariable)
    (shared : gmap TensorVariable expr) (make_shared : bool)
  : alloc (result (list expr * expr)) :=
  match tt_concatenate_call ((λ var, ravel (Var var)) <$> vars) 0 with
  | Raise e => mret (Raise e)
  | OK joined =>
      inarray ← make_inarray joined make_shared;
      mret (replace ← join_replace vars shared inarray;
            let xs_special := (λ x, clone x replace) <$> xs in
            mret (xs_special, inarray))
  end.

End Join.

(** ** CallableTensor *)

Record CallableTensor := mk_CallableTensor {
  tensor : expr
}.

(** [oldinput, = inputvars(self.tensor)] unpacks a list of exactly one
    element and raises [ValueError] on any other. *)
Definition unpack_one {A} (l : list A) : result A :=
  match l with
  | [a] => OK a
  | [] => Raise (ValueError "not enough values to unpack")
  | _ => Raise (ValueError "too many values to unpack")
  end.

Definition CallableTensor_call (self : CallableTensor) (input : expr) : result expr :=
  oldinput ← unpack_one (inputvars (One (tensor self)));
  mret (clone (tensor self) {[oldinput := input]}).

(** ** GeneratorOp: a generator as a graph node *)

(** Modelled from the spec: [DataGenerator] of [pymc3/data.py], which is not
    part of the sources at hand.  A stream source exposes a fixed tensor
    type and one sample value that is there before any element is asked
    for; each request yields one array, and a source that has no more
    elements signals the end of the sequence, on every further request
    too.  [pending] are the elements it has yet to yield. *)
Record DataGenerator := mk_DataGenerator {
  gen_test_value : ndarray;
  tensortype : TensorType;
  pending : list ndarray
}.

(** Modelled from the spec: [next(generator)] on a [DataGenerator], the
    request for one element of the stream-source contract. *)
Definition DataGenerator_next (g : DataGenerator) : result ndarray * DataGenerator :=
  match pending g with
  | [] => (Raise StopIteration, g)
  | x :: rest => (OK x, mk_DataGenerator (gen_test_value g) (tensortype g) rest)
  end.

(** The constructor of [DataGenerator], applied to a Python iterator: how it
    gets the sample and the tensor type is its own matter. *)
Class data_api := {
  iterator : Type;
  DataGenerator_init : iterator → result DataGenerator
}.

(** What numpy does with [a[...] = np.nan], by the dtype of [a]: the value
    that ends up in every cell, which is not-a-number itself for the
    floating dtypes only, or the exception it raises. *)
Class numpy_api := {
  nan_as : dtype → result cell
}.

(** [np.zeros_like(a)] *)
Definition zeros_like (a : ndarray) : ndarray :=
  mk_ndarray (arr_dtype a) (arr_shape a) (replicate (length (arr_data a)) (Num 0)).

(** [a[...] = np.nan] *)
Definition fill_nan {Np : numpy_api} (a : ndarray) : result ndarray :=
  c ← nan_as (arr_dtype a);
  mret (mk_ndarray (arr_dtype a) (arr_shape a) (replicate (length (arr_data a)) c)).

(** The attributes that [GeneratorOp.__init__] sets.  The Op is the one
    consumer of its generator, whose state is kept here, in the Op. *)
Record GeneratorOp := mk_GeneratorOp {
  generator : DataGenerator;
  itypes : list TensorType;
  otypes : list TensorType;
  _nan : ndarray
}.

(** [theano.config.compute_test_value] *)
Inductive compute_test_value_flag :=
| ctv_off
| ctv_ignore
| ctv_warn
| ctv_raise
| ctv_pdb.

Record config := mk_config {
  compute_test_value : compute_test_value_flag
}.

(** The output variable of the node that applying the Op makes. *)
Record output_variable := mk_output_variable {
  out_type : TensorType;
  out_test_value : option ndarray;
  has_set_gen : bool
}.

#[global] Instance DataGenerator_eq_dec : EqDecision DataGenerator.
Proof. solve_decision. Defined.
#[global] Instance GeneratorOp_eq_dec : EqDecision GeneratorOp.
Proof. solve_decision. Defined.

Section Generator.
Context {Da : data_api} {Np : numpy_api}.

(** What is passed as [gen]: a [DataGenerator] or any other iterator. *)
Inductive gen_arg :=
| Wrapped (g : DataGenerator)
| Plain (it : iterator).

(** [if not isinstance(gen, DataGenerator): gen = DataGenerator(gen)] *)
Definition as_DataGenerator (gen : gen_arg) : result DataGenerator :=
  match gen with
  | Wrapped g => OK g
  | Plain it => DataGenerator_init it
  end.

Definition GeneratorOp_init (gen : gen_arg) : result GeneratorOp :=
  gen ← as_DataGenerator gen;
  nan ← fill_nan (zeros_like (gen_test_value gen));
  mret (mk_GeneratorOp gen [] [tensortype gen] nan).

(** [perform]: the value stored in [output_storage[0][0]], and the Op
    afterwards.  Only [StopIteration] is caught. *)
Definition perform (self : GeneratorOp) : result ndarray * GeneratorOp :=
  let '(r, g) := DataGenerator_next (generator self) in
  let self' := mk_GeneratorOp g (itypes self) (otypes self) (_nan self) in
  match r with
  | OK x => (OK x, self')
  | Raise StopIteration => (OK (_nan self), self')
  | Raise e => (Raise e, self')
  end.

Definition do_constant_folding (self : GeneratorOp) : bool := false.

(** [Op.__call__] of Theano for an Op without inputs: it makes the node,
    and unless [compute_test_value] is off it runs the Op once to give the
    output its test value. *)
Definition Op_call (self : GeneratorOp) (cfg : config)
  : result output_variable * GeneratorOp :=
  match otypes self with
  | [] => (Raise (ValueError "no output type"), self)
  | o :: _ =>
      match compute_test_value cfg with
      | ctv_off => (OK (mk_output_variable o None false), self)
      | _ =>
          let '(r, self') := perform self in
          (x ← r; mret (mk_output_variable o (Some x) false), self')
      end
  end.

(** [@change_flags(compute_test_value=flag)]: the decorated function runs
    under the changed configuration, and the old one is put back. *)
Definition change_flags {A} (flag : compute_test_value_flag) (f : config → A)
  : config → A * config :=
  λ cfg, let old := cfg in (f (mk_config flag), old).

(** [GeneratorOp.__call__] *)
Definition GeneratorOp_call (self : GeneratorOp) : config → (result output_variable * GeneratorOp) * config :=
  change_flags ctv_off (λ cfg,
    let '(rval, self') := Op_call self cfg in
    (rval ← rval;
     mret (mk_output_variable (out_type rval) (Some (gen_test_value (generator self'))) true),
     self')).

Definition set_gen (self : GeneratorOp) (gen : gen_arg) : result () * GeneratorOp :=
  match as_DataGenerator gen with
  | Raise e => (Raise e, self)
  | OK gen =>
      if negb (bool_decide (tensortype gen = tensortype (generator self))) then
        (Raise (ValueError "New generator should yield the same type"), self)
      else
        (OK (), mk_GeneratorOp gen (itypes self) (otypes self) (_nan self))
  end.

(** shortcut for `GeneratorOp` *)
Definition generator_ (gen : gen_arg) (cfg : config)
  : result (output_variable * GeneratorOp) * config :=
  match GeneratorOp_init gen with
  | Raise e => (Raise e, cfg)
  | OK op =>
      let '((rval, op'), cfg') := GeneratorOp_call op cfg in
      (rval ← rval; mret (rval, op'), cfg')
  end.

(** [n] evaluations of the node in a row: the outputs and the Op
    afterwards.  An exception ends the run. *)
Fixpoint evaluations (n : nat) (self : GeneratorOp) : result (list ndarray) * GeneratorOp :=
  match n with
  | 0 => (OK [], self)
  | S n =>
      let '(r, self') := perform self in
      match r with
      | Raise e => (Raise e, self')
      | OK x =>
          let '(rs, self'') := evaluations n self' in
          (xs ← rs; mret (x :: xs), self'')
      end
  end.

End Generator.

(** ** Notions the properties are stated with *)

(** Every entry of a cache holds what [fn] computes for its key. *)
Definition cache_ok (fn : expr → option (list TensorVariable) → expr)
    (cache : memo_cache) : Prop :=
  ∀ f vars r, cache_get cache (f, vars) = Some r → r = fn f vars.

Definition caches_ok {Th : theano_api} {Vt : vartypes_api} (st : memo_caches) : Prop :=
  cache_ok gradient_body (gradient_cache st) ∧
  cache_ok jacobian_body (jacobian_cache st) ∧
  cache_ok (λ f vars, tt_neg (jacobian_body (gradient_body f vars) vars)) (hessian_cache st) ∧
  cache_ok hessian_diag_body (hessian_diag_cache st).

(** The sentinel for an array: same dtype and shape, every cell
    not-a-number. *)
Definition nan_like (a : ndarray) : ndarray :=
  mk_ndarray (arr_dtype a) (arr_shape a) (replicate (length (arr_data a)) NaN).

(** An array like [a] with [c] in every cell. *)
Definition filled_like (a : ndarray) (c : cell) : ndarray :=
  mk_ndarray (arr_dtype a) (arr_shape a) (replicate (length (arr_data a)) c).

(** What can happen to a [GeneratorOp] once it is made: the node is
    evaluated, the generator is set anew, or the Op is called to make a
    node. *)
Inductive bridge_step {Da : data_api} : GeneratorOp → GeneratorOp → Prop :=
| step_perform self : bridge_step self (perform self).2
| step_set_gen self gen : bridge_step self (set_gen self gen).2
| step_call self cfg : bridge_step self (GeneratorOp_call self cfg).1.2.


(** The placeholder that the [i]-th variable of the comprehension gets
    when [h] is the next unused identity. *)
Definition placeholder (h i : nat) (var : TensorVariable) : SharedVariable :=
  mk_SharedVariable (h + i) (name var +:+ "_shared") (test_value var).

(** Where the slice of the [i]-th variable of [vars] starts: the number of
    elements of the variables before it. *)
Definition offset (vars : list TensorVariable) (i : nat) : nat :=
  sum_list (dsize <$> take i vars).

(** The slice of a variable that starts at [start], brought back to the
    shape and the dtype of the variable. *)
Definition slice_of (inarray : expr) (start : nat) (v : TensorVariable) : expr :=
  astype (reshape_t (subtensor_slice inarray (start, start + dsize v)) (dshape v))
         (var_dtype v).

(** What cloning with [replace] puts in the place of a node without
    owner: the nodes without owner of the replacement, or the node. *)
Definition subst_leaf (replace : gmap TensorVariable expr) (e : expr) : list expr :=
  match e with
  | Var v => match replace !! v with Some r => leaves r | None => [e] end
  | _ => [e]
  end.

(** The position of a variable is the last one in [vars] that has its
    name. *)
Definition last_of_its_name (vars : list TensorVariable) (i : nat) (v : TensorVariable) : Prop :=
  vars !! i = Some v ∧ ∀ j w, i < j → vars !! j = Some w → name w ≠ name v.

(** ** Instances to run the definitions on *)

(** A Theano whose transformations stay symbolic: the gradient and the scan
    are nodes of their own. *)
Definition symbolic_theano : theano_api := {|
  tt_grad f v := Apply (OtherOp "grad") [f; Var v];
  theano_map fn sequences :=
    (Apply (OtherOp "scan") [fn (Apply (OtherOp "scan_slice") [sequences]); sequences], []);
  expr_type e := mk_TensorType (default "float64" (static_dtype e)) [false];
  expr_test_value e := mk_ndarray (default "float64" (static_dtype e)) [0] []
|}.

Definition float_vartypes : vartypes_api := {|
  continuous_types := ["float32"; "float64"]
|}.

(** A [DataGenerator] over a Python list: the first element is the sample,
    and it is still the first element yielded. *)
Definition list_data : data_api := {|
  iterator := list ndarray;
  DataGenerator_init it :=
    match it with
    | [] => Raise StopIteration
    | a :: _ =>
        OK (mk_DataGenerator a
              (mk_TensorType (arr_dtype a) (replicate (length (arr_shape a)) false)) it)
    end
|}.

(** numpy on the floating, the bool and the integer dtypes: not-a-number is
    stored as it is in a floating array and as [True] in a bool array, and
    an integer array refuses it. *)
Definition float_numpy : numpy_api := {|
  nan_as d :=
    if bool_decide (d ∈ ["float16"; "float32"; "float64"]) then OK NaN
    else if bool_decide (d = "bool") then OK (Num 1)
    else Raise (ValueError "cannot convert float NaN to integer")
|}.

Definition float_vector (data : list Z) : ndarray :=
  mk_ndarray "float64" [length data] (Num <$> data).

Definition example_var (id : nat) (nm : string) (shape : list nat) : TensorVariable :=
  mk_TensorVariable id nm (mk_TensorType "float64" (replicate (length shape) false))
    (mk_ndarray "float64" shape (replicate (foldr Nat.mul 1 shape) (Num 0))) shape.

Definition example_a : ndarray := float_vector [1; 2]%Z.
Definition example_b : ndarray := float_vector [3; 4]%Z.
Definition example_type : TensorType := mk_TensorType "float64" [false].

(** The Op that [GeneratorOp([a, b])] makes. *)
Definition example_op : GeneratorOp :=
  mk_GeneratorOp (mk_DataGenerator example_a example_type [example_a; example_b])
    [] [example_type] (nan_like example_a).

Definition bool_vector (data : list bool) : ndarray :=
  mk_ndarray "bool" [length data] ((λ b : bool, Num (if b then 1 else 0)) <$> data).

(** Three variables, the first two of them different nodes of one name. *)
Definition example_vars : list TensorVariable :=
  [example_var 1 "x" [2]; example_var 2 "x" [3]; example_var 3 "y" []].

(** A Theano whose gradients are constants, as the gradient of a linear
    function may be: the gradient graph has none of the inputs of the
    function. *)
Definition constant_grad_theano : theano_api := {|
  tt_grad f v := Const (test_value v);
  theano_map fn sequences :=
    (Apply (OtherOp "scan") [fn (Apply (OtherOp "scan_slice") [sequences]); sequences], []);
  expr_type e := mk_TensorType (default "float64" (static_dtype e)) [false];
  expr_test_value e := mk_ndarray (default "float64" (static_dtype e)) [0] []
|}.

(** * Properties *)

(** Induction over graphs that reaches the inputs of an [Apply] node. *)
Lemma expr_ind' (P : expr → Prop) :
  (∀ v, P (Var v)) → (∀ s, P (Shared s)) → (∀ c, P (Const c)) →
  (∀ op args, Forall P args → P (Apply op args)) →
  ∀ e, P e.
Proof.
  intros HV HS HC HA. fix IH 1. intros [v|s|c|op args].
  - apply HV.
  - apply HS.
  - apply HC.
  - apply HA. induction args as [|a args IHargs]; constructor.
    + apply IH.
    + apply IHargs.
Qed.

(** ** Derivatives *)

Lemma cache_ok_nil fn : cache_ok fn [].
Proof. intros f vars r. done. Qed.

Lemma cache_ok_cons fn (cache : memo_cache) f vars :
  cache_ok fn cache → cache_ok fn (((f, vars), fn f vars) :: cache).
Proof.
  intros Hok f' vars' r. simpl. case_decide as Heq.
  - injection Heq as -> ->. by intros [= <-].
  - apply Hok.
Qed.

(** The two ways a memoized call goes: the key is in the cache, or not. *)
Ltac memoize_cases cache :=
  unfold memoize;
  let Hget := fresh "Hget" in
  destruct (cache_get cache _) as [?r|] eqn:Hget; simpl.

Section DifferentiationProperties.
Context {Th : theano_api} {Vt : vartypes_api}.

Lemma caches_ok_no_caches : caches_ok no_caches.
Proof. repeat split; apply cache_ok_nil. Qed.

(** A memoized function whose body does not touch the caches returns what
    its body computes, and keeps the caches right. *)
Lemma gradient_ok f vars st :
  caches_ok st →
  (gradient f vars st).1 = gradient_body f vars ∧ caches_ok (gradient f vars st).2.
Proof.
  intros (Hg & Hj & Hh & Hd). unfold gradient. memoize_cases (gradient_cache st).
  - split; [by apply Hg | done].
  - split; [done|]. split_and!; [by apply cache_ok_cons | done..].
Qed.

Lemma jacobian_ok f vars st :
  caches_ok st →
  (jacobian f vars st).1 = jacobian_body f vars ∧ caches_ok (jacobian f vars st).2.
Proof.
  intros (Hg & Hj & Hh & Hd). unfold jacobian. memoize_cases (jacobian_cache st).
  - split; [by apply Hj | done].
  - split; [done|]. split_and!; [done | by apply cache_ok_cons | done..].
Qed.

Lemma hessian_diag_ok f vars st :
  caches_ok st →
  (hessian_diag f vars st).1 = hessian_diag_body f vars ∧
  caches_ok (hessian_diag f vars st).2.
Proof.
  intros (Hg & Hj & Hh & Hd). unfold hessian_diag. memoize_cases (hessian_diag_cache st).
  - split; [by apply Hd | done].
  - split; [done|]. split_and!; [done | done | done | by apply cache_ok_cons].
Qed.

(** The nested calls of [hessian]: the gradient, then its jacobian. *)
Lemma jacobian_of_gradient_ok f vars st :
  caches_ok st →
  ((g ← gradient f vars; jacobian g vars) st).1
    = jacobian_body (gradient_body f vars) vars ∧
  caches_ok ((g ← gradient f vars; jacobian g vars) st).2.
Proof.
  intros Hok. unfold mbind, stateful_bind.
  destruct (gradient_ok f vars st Hok) as [Hg Hok1].
  destruct (gradient f vars st) as [g st1]. simpl in *. subst g.
  apply jacobian_ok, Hok1.
Qed.

Lemma hessian_body_ok f vars st :
  caches_ok st →
  (hessian_body f vars st).1 = tt_neg (jacobian_body (gradient_body f vars) vars) ∧
  caches_ok (hessian_body f vars st).2.
Proof.
  intros Hok. unfold hessian_body, mbind, stateful_bind.
  destruct (gradient_ok f vars st Hok) as [Hg Hok1].
  destruct (gradient f vars st) as [g st1]. simpl in *. subst g.
  destruct (jacobian_ok (gradient_body f vars) vars st1 Hok1) as [Hj Hok2].
  destruct (jacobian (gradient_body f vars) vars st1) as [j st2]. simpl in *.
  by subst j.
Qed.

Lemma hessian_ok f vars st :
  caches_ok st →
  (hessian f vars st).1 = tt_neg (jacobian_body (gradient_body f vars) vars) ∧
  caches_ok (hessian f vars st).2.
Proof.
  intros Hok. unfold hessian. memoize_cases (hessian_cache st).
  - split; [|done]. destruct Hok as (_ & _ & Hh & _). by apply Hh.
  - destruct (hessian_body_ok f vars st Hok) as [Hr Hok'].
    destruct (hessian_body f vars st) as [r st']. simpl in *. subst r.
    split; [done|]. destruct Hok' as (Hg & Hj & Hh & Hd).
    split_and!; [done | done | | done].
    by apply (cache_ok_cons (λ f vars, tt_neg (jacobian_body (gradient_body f vars) vars))).
Qed.

Lemma do_call_ok c st : caches_ok st → caches_ok (do_call c st).2.
Proof.
  intros Hok. destruct c as [f vars|f vars|f vars|f vars]; simpl.
  - by apply gradient_ok.
  - by apply jacobian_ok.
  - by apply hessian_ok.
  - by apply hessian_diag_ok.
Qed.

(** Whatever was called before, every cached result is what the function
    computes for its key. *)
Lemma caches_after_ok history : caches_ok (caches_after history).
Proof.
  unfold caches_after. induction history as [|c history IH] using rev_ind.
  - apply caches_ok_no_caches.
  - rewrite foldl_snoc. by apply do_call_ok.
Qed.

(** C1. For every expression [f] and every variable list [vars] (given, or
    left out and then resolved by each inner call on its own), and
    whatever calls were made before, [hessian f vars] returns the negation
    of what [jacobian (gradient f vars) vars] returns, and that is the
    jacobian of the gradient as the undecorated functions build them. *)
Theorem hessian_neg_jacobian_gradient (history : list memo_call) (f : expr)
    (vars : option (list TensorVariable)) :
  (hessian f vars (caches_after history)).1 =
    tt_neg ((g ← gradient f vars; jacobian g vars) (caches_after history)).1 ∧
  ((g ← gradient f vars; jacobian g vars) (caches_after history)).1 =
    jacobian_body (gradient_body f vars) vars.
Proof.
  pose proof (caches_after_ok history) as Hok.
  destruct (jacobian_of_gradient_ok f vars _ Hok) as [-> _].
  split; [|done]. by apply hessian_ok.
Qed.

Example gradient_two_vars :
  (gradient (Th:=symbolic_theano) (Vt:=float_vartypes)
     (Apply (Elemwise "add") [Var (example_var 1 "x" [2]); Var (example_var 2 "y" [])])
     None no_caches).1 =
  Apply (Join 0)
    [Apply Flatten [tt_grad (theano_api:=symbolic_theano)
       (Apply (Elemwise "add") [Var (example_var 1 "x" [2]); Var (example_var 2 "y" [])])
       (example_var 1 "x" [2])];
     Apply Flatten [tt_grad (theano_api:=symbolic_theano)
       (Apply (Elemwise "add") [Var (example_var 1 "x" [2]); Var (example_var 2 "y" [])])
       (example_var 2 "y" [])]].
Proof. vm_compute. reflexivity. Qed.

Example gradient_cached_once :
  caches_after (Th:=symbolic_theano) (Vt:=float_vartypes)
    [call_gradient (Const example_a) (Some []); call_gradient (Const example_a) (Some [])] =
  caches_after (Th:=symbolic_theano) (Vt:=float_vartypes)
    [call_gradient (Const example_a) (Some [])].
Proof. vm_compute. reflexivity. Qed.

(** With at least one variable, the graph that [hessian] builds, written
    out. *)
Lemma hessian_cons (f : expr) (v : TensorVariable) (vs : list TensorVariable) :
  (hessian f (Some (v :: vs)) no_caches).1 =
  Apply Neg [Apply (Join 1)
    ((λ w, jacobian1 (Apply (Join 0) ((λ u, gradient1 f u) <$> v :: vs)) w) <$> v :: vs)].
Proof. reflexivity. Qed.

(** C2, as the code has it. With [vars = []], whatever calls were made
    before, [gradient], [jacobian] and [hessian_diag] each return
    [empty_gradient], a vector of length zero of dtype float32, and
    [hessian] returns the negation of that vector: one dimension of length
    zero, not a matrix. *)
Theorem empty_vars_results (history : list memo_call) (f : expr) :
  (gradient f (Some []) (caches_after history)).1 = empty_gradient ∧
  (jacobian f (Some []) (caches_after history)).1 = empty_gradient ∧
  (hessian_diag f (Some []) (caches_after history)).1 = empty_gradient ∧
  static_shape empty_gradient = Some [0] ∧
  static_dtype empty_gradient = Some "float32" ∧
  (hessian f (Some []) (caches_after history)).1 = tt_neg empty_gradient ∧
  static_shape (hessian f (Some []) (caches_after history)).1 = Some [0] ∧
  static_dtype (hessian f (Some []) (caches_after history)).1 = Some "float32".
Proof.
  pose proof (caches_after_ok history) as Hok.
  destruct (gradient_ok f (Some []) _ Hok) as [-> _].
  destruct (jacobian_ok f (Some []) _ Hok) as [-> _].
  destruct (hessian_diag_ok f (Some []) _ Hok) as [-> _].
  destruct (hessian_ok f (Some []) _ Hok) as [-> _].
  repeat split.
Qed.

End DifferentiationProperties.

(** C2, as stated, fails: the result of [hessian] for [vars = []] has one
    dimension, so it is not zero-by-zero. *)
Lemma hessian_empty_not_matrix :
  static_shape (hessian (Th:=symbolic_theano) (Vt:=float_vartypes)
                  (Var (example_var 1 "x" [3])) (Some []) no_caches).1 = Some [0] ∧
  static_shape (hessian (Th:=symbolic_theano) (Vt:=float_vartypes)
                  (Var (example_var 1 "x" [3])) (Some []) no_caches).1 ≠ Some [0; 0].
Proof. split; [reflexivity | discriminate]. Qed.

(** ** Inputs of a graph *)

Lemma elem_of_record_once (seen : list expr) (e x : expr) :
  x ∈ record_once seen e ↔ x ∈ seen ∨ x = e.
Proof.
  unfold record_once. case_decide as Hin.
  - split; [auto | intros [?| ->]; done].
  - rewrite elem_of_app, list_elem_of_singleton. done.
Qed.

Lemma elem_of_foldl_record_once (l seen : list expr) (x : expr) :
  x ∈ foldl record_once seen l ↔ x ∈ seen ∨ x ∈ l.
Proof.
  revert seen. induction l as [|e l IH]; intros seen; simpl.
  - rewrite elem_of_nil. tauto.
  - rewrite IH, elem_of_record_once, elem_of_cons. tauto.
Qed.

Lemma NoDup_record_once (seen : list expr) (e : expr) :
  NoDup seen → NoDup (record_once seen e).
Proof.
  intros Hnd. unfold record_once. case_decide as Hin; [done|].
  apply NoDup_app. split_and!; [done | | apply NoDup_singleton].
  intros x Hx ->%list_elem_of_singleton. done.
Qed.

Lemma NoDup_foldl_record_once (l seen : list expr) :
  NoDup seen → NoDup (foldl record_once seen l).
Proof.
  revert seen. induction l as [|e l IH]; intros seen Hnd; simpl; [done|].
  apply IH, NoDup_record_once, Hnd.
Qed.

Lemma NoDup_inputs (xs : list expr) : NoDup (inputs xs).
Proof. apply NoDup_foldl_record_once, NoDup_nil_2. Qed.

Lemma elem_of_inputs (xs : list expr) (e : expr) :
  e ∈ inputs xs ↔ ∃ x, x ∈ xs ∧ e ∈ leaves x.
Proof.
  unfold inputs. rewrite elem_of_foldl_record_once, elem_of_nil.
  rewrite list_elem_of_join. split.
  - intros [[]|(l & Hl & (x & -> & Hx)%list_elem_of_fmap)].
    exists x. by rewrite <-elem_of_reverse.
  - intros (x & Hx & He). right. exists (leaves x). split; [done|].
    apply list_elem_of_fmap. exists x. by rewrite elem_of_reverse.
Qed.

Lemma as_TensorVariable_Some (e : expr) (v : TensorVariable) :
  as_TensorVariable e = Some v ↔ e = Var v.
Proof. destruct e; simpl; naive_solver. Qed.

Lemma NoDup_omap_as_TensorVariable (l : list expr) :
  NoDup l → NoDup (omap as_TensorVariable l).
Proof.
  induction 1 as [|e l Hnotin Hnd IH]; simpl; [constructor|].
  destruct (as_TensorVariable e) as [v|] eqn:He; [|done].
  apply as_TensorVariable_Some in He as ->.
  constructor; [|done].
  rewrite list_elem_of_omap. intros (e' & He' & ->%as_TensorVariable_Some). done.
Qed.

(** The variables [inputvars] returns are the [TensorVariable]s met among
    the nodes without owner, each once. *)
Lemma elem_of_inputvars (a : pyarg) (v : TensorVariable) :
  v ∈ inputvars a ↔ ∃ x, x ∈ makeiter a ∧ Var v ∈ leaves x.
Proof.
  unfold inputvars. rewrite list_elem_of_omap. split.
  - intros (e & He & ->%as_TensorVariable_Some). by apply elem_of_inputs.
  - intros Hx. exists (Var v). split; [by apply elem_of_inputs | done].
Qed.

Lemma NoDup_inputvars (a : pyarg) : NoDup (inputvars a).
Proof. apply NoDup_omap_as_TensorVariable, NoDup_inputs. Qed.

(** ** CallableTensor *)

(** Cloning with one replaced variable rewrites every occurrence of that
    variable and nothing else. *)
Lemma leaves_clone_singleton (x input : expr) (old : TensorVariable) :
  leaves (clone x {[old := input]}) =
  leaves x ≫= λ e, if decide (e = Var old) then leaves input else [e].
Proof.
  induction x as [v|s|c|op args IH] using expr_ind'; simpl.
  - destruct (decide (v = old)) as [->|Hne];
      [rewrite lookup_singleton_eq | rewrite lookup_singleton_ne by done];
      simpl; case_decide; simplify_eq; by rewrite ?app_nil_r.
  - done.
  - done.
  - induction IH as [|a args Ha _ IHargs]; simpl; [done|].
    rewrite bind_app. f_equal; [apply Ha | apply IHargs].
Qed.

Example CallableTensor_call_one :
  CallableTensor_call
    (mk_CallableTensor (Apply (Elemwise "mul") [Var (example_var 1 "x" []); Var (example_var 1 "x" [])]))
    (Const (float_vector [5%Z]))
  = OK (Apply (Elemwise "mul") [Const (float_vector [5%Z]); Const (float_vector [5%Z])]).
Proof. vm_compute. reflexivity. Qed.

Example CallableTensor_call_two :
  CallableTensor_call
    (mk_CallableTensor (Apply (Elemwise "add") [Var (example_var 1 "x" []); Var (example_var 2 "x" [])]))
    (Const (float_vector [5%Z]))
  = Raise (ValueError "too many values to unpack").
Proof. vm_compute. reflexivity. Qed.

Example CallableTensor_call_none :
  CallableTensor_call
    (mk_CallableTensor (Apply (Elemwise "exp") [Shared (mk_SharedVariable 3 "s" (float_vector [1%Z]))]))
    (Const (float_vector [5%Z]))
  = Raise (ValueError "not enough values to unpack").
Proof. vm_compute. reflexivity. Qed.

(** C8. The free input variables of the wrapped graph are the distinct
    [TensorVariable]s among its nodes without owner.  The call succeeds
    exactly when there is exactly one, and then returns the graph with that
    variable replaced by the argument; with none or more than one it raises
    [ValueError]. *)
Theorem CallableTensor_call_spec (self : CallableTensor) (input : expr) :
  NoDup (inputvars (One (tensor self))) ∧
  (∀ v, v ∈ inputvars (One (tensor self)) ↔ Var v ∈ leaves (tensor self)) ∧
  (is_OK (CallableTensor_call self input) = true ↔
   length (inputvars (One (tensor self))) = 1) ∧
  match inputvars (One (tensor self)) with
  | [oldinput] =>
      CallableTensor_call self input = OK (clone (tensor self) {[oldinput := input]})
  | _ => ∃ msg, CallableTensor_call self input = Raise (ValueError msg)
  end.
Proof.
  split_and!.
  - apply NoDup_inputvars.
  - intros v. rewrite elem_of_inputvars. simpl. setoid_rewrite list_elem_of_singleton.
    split; [intros (x & -> & Hx) | intros Hx; exists (tensor self)]; done.
  - unfold CallableTensor_call.
    destruct (inputvars (One (tensor self))) as [|v [|w l]]; simpl; naive_solver.
  - unfold CallableTensor_call.
    destruct (inputvars (One (tensor self))) as [|v [|w l]]; simpl; eauto.
Qed.

(** ** Shared replacements *)

Lemma shared_of_counter (l : list TensorVariable) acc (h : nat) :
  (shared_of l acc h).2 = h + length l.
Proof.
  revert acc h. induction l as [|var l IH]; intros acc h; simpl.
  - lia.
  - unfold mbind, stateful_bind. simpl. rewrite IH. lia.
Qed.

Lemma shared_of_lookup_notin (l : list TensorVariable) acc (h : nat) (v : TensorVariable) :
  v ∉ l → (shared_of l acc h).1 !! v = acc !! v.
Proof.
  revert acc h. induction l as [|var l IH]; intros acc h Hnotin; simpl; [done|].
  apply not_elem_of_cons in Hnotin as [Hne Hnotin].
  unfold mbind, stateful_bind. simpl. rewrite IH by done.
  by rewrite lookup_insert_ne.
Qed.

Lemma shared_of_lookup (l : list TensorVariable) acc (h i : nat) (v : TensorVariable) :
  NoDup l → l !! i = Some v →
  (shared_of l acc h).1 !! v = Some (placeholder h i v).
Proof.
  revert acc h i. induction l as [|var l IH]; intros acc h i Hnd Hi; [done|].
  apply NoDup_cons in Hnd as [Hnotin Hnd]. simpl.
  unfold mbind, stateful_bind. simpl. destruct i as [|i]; simpl in Hi.
  - injection Hi as ->. rewrite shared_of_lookup_notin by done.
    rewrite lookup_insert_eq. unfold placeholder. by rewrite Nat.add_0_r.
  - rewrite (IH _ _ i) by done. unfold placeholder. do 2 f_equal. lia.
Qed.

Lemma shared_of_lookup_Some (l : list TensorVariable) (h : nat) (v : TensorVariable) s :
  NoDup l →
  (shared_of l ∅ h).1 !! v = Some s ↔ ∃ i, l !! i = Some v ∧ s = placeholder h i v.
Proof.
  intros Hnd. split.
  - intros Hs. destruct (decide (v ∈ l)) as [Hin|Hnotin].
    + apply list_elem_of_lookup in Hin as [i Hi]. exists i. split; [done|].
      rewrite (shared_of_lookup _ _ _ i) in Hs by done. congruence.
    + rewrite shared_of_lookup_notin, lookup_empty in Hs by done. done.
  - intros (i & Hi & ->). by apply shared_of_lookup.
Qed.

(** C9. The keys of the mapping are the variables of the model that are not
    in [vars]; each is mapped to a shared variable that holds its test value
    and is named after it; the shared variables of one call are new and
    differ from one another, and a later call with the same arguments makes
    the same keys and shares no shared variable with the earlier one. *)
Theorem make_shared_replacements_spec (vars : list TensorVariable) (model : Model) (h d : nat) :
  let first := make_shared_replacements vars model h in
  let second := make_shared_replacements vars model (first.2 + d) in
  dom first.1 = list_to_set (model_vars model) ∖ list_to_set vars ∧
  map_Forall (λ var s, svalue s = test_value var ∧ sname s = name var +:+ "_shared" ∧
                       h ≤ sid s < first.2) first.1 ∧
  map_Forall (λ v s, map_Forall (λ w t, s = t → v = w) first.1) first.1 ∧
  dom second.1 = dom first.1 ∧
  map_Forall (λ _ s2, map_Forall (λ _ s1, s1 ≠ s2) first.1) second.1.
Proof.
  intros first second. subst first second. unfold make_shared_replacements.
  set (othervars := list_to_set (model_vars model) ∖ list_to_set vars : gset TensorVariable).
  pose proof (NoDup_elements othervars) as Hnd.
  assert (Hdom : ∀ k, dom (shared_of (elements othervars) ∅ k).1 = othervars).
  { intros k. apply set_eq. intros v. rewrite elem_of_dom. unfold is_Some.
    setoid_rewrite (shared_of_lookup_Some _ _ _ _ Hnd). rewrite <-elem_of_elements.
    rewrite list_elem_of_lookup. split; [intros (s & i & ? & ?) | intros [i ?]]; eauto. }
  rewrite shared_of_counter. split_and!.
  - apply Hdom.
  - intros v s (i & Hi & ->)%(shared_of_lookup_Some _ _ _ _ Hnd). simpl.
    apply lookup_lt_Some in Hi. split_and!; [done | done | lia | lia].
  - intros v s (i & Hi & ->)%(shared_of_lookup_Some _ _ _ _ Hnd).
    intros w t (j & Hj & ->)%(shared_of_lookup_Some _ _ _ _ Hnd).
    intros [= Hij _ _]. assert (i = j) as -> by lia. congruence.
  - by rewrite !Hdom.
  - intros w s2 (j & Hj & ->)%(shared_of_lookup_Some _ _ _ _ Hnd).
    intros v s1 (i & Hi & ->)%(shared_of_lookup_Some _ _ _ _ Hnd).
    apply lookup_lt_Some in Hi. intros [= Hij _ _]. lia.
Qed.

(** ** Joining the inputs into one vector *)

Lemma comprehension_OK {A B} (f : A → result B) (l : list A) (bs : list B) :
  comprehension f l = OK bs ↔ Forall2 (λ a b, f a = OK b) l bs.
Proof.
  revert bs. induction l as [|a l IH]; intros bs; simpl.
  - split; [intros [= <-]; constructor | by inversion 1].
  - unfold mbind, result_bind, mret, result_ret.
    destruct (f a) as [b|e] eqn:Hfa.
    + destruct (comprehension f l) as [bs'|e] eqn:Hl.
      * split.
        -- intros [= <-]. constructor; [done | by apply IH].
        -- inversion 1 as [|? b' ? bs'' Hb Hbs]; subst.
           apply IH in Hbs. congruence.
      * split; [done|]. inversion 1 as [|? b' ? bs'' Hb Hbs]; subst.
        apply IH in Hbs. done.
    + split; [done|]. inversion 1; congruence.
Qed.

Lemma dict_of_list_to_map {K V} `{Countable K} (items : list (K * V)) :
  dict_of items = list_to_map (reverse items).
Proof.
  induction items as [|[k v] items IH] using rev_ind; [done|].
  unfold dict_of in *. rewrite foldl_snoc, reverse_snoc, list_to_map_cons, IH. done.
Qed.

Lemma dict_of_lookup_NoDup {K V} `{Countable K} (items : list (K * V)) (k : K) (v : V) :
  NoDup items.*1 → (k, v) ∈ items → dict_of items !! k = Some v.
Proof.
  intros Hnd Hin. rewrite dict_of_list_to_map. apply elem_of_list_to_map_1.
  - by rewrite fmap_reverse, reverse_Permutation.
  - by rewrite elem_of_reverse.
Qed.

Lemma dict_of_lookup_None {K V} `{Countable K} (items : list (K * V)) (k : K) :
  dict_of items !! k = None ↔ k ∉ items.*1.
Proof.
  rewrite dict_of_list_to_map, <-not_elem_of_list_to_map, fmap_reverse, elem_of_reverse. done.
Qed.

Lemma get_var_of_is_Some (vars : list TensorVariable) (v : TensorVariable) :
  v ∈ vars → is_Some (get_var_of vars !! name v).
Proof.
  intros Hin. unfold get_var_of. apply not_eq_None_Some. rewrite dict_of_lookup_None.
  intros Hnot. apply Hnot. rewrite <-list_fmap_compose.
  apply list_elem_of_fmap. by exists v.
Qed.

Lemma get_var_of_NoDup (vars : list TensorVariable) (v : TensorVariable) :
  NoDup (name <$> vars) → v ∈ vars → get_var_of vars !! name v = Some v.
Proof.
  intros Hnd Hin. unfold get_var_of. apply dict_of_lookup_NoDup.
  - by rewrite <-list_fmap_compose.
  - apply list_elem_of_fmap. by exists v.
Qed.

Lemma vmap_from_lookup (vars : list TensorVariable) (dim i : nat) (v : TensorVariable) :
  vars !! i = Some v →
  vmap_from dim vars !! i =
  Some (mk_VarMap (name v) (dim + offset vars i, dim + offset vars i + dsize v)
          (dshape v) (var_dtype v)).
Proof.
  revert dim i. induction vars as [|var vars IH]; intros dim i Hi; [done|].
  destruct i as [|i]; simpl in *.
  - injection Hi as ->. unfold offset. simpl. by rewrite Nat.add_0_r.
  - rewrite (IH _ _ Hi). unfold offset. simpl. by rewrite !Nat.add_assoc.
Qed.

Lemma vmap_from_names (vars : list TensorVariable) (dim : nat) :
  vm_var <$> vmap_from dim vars = name <$> vars.
Proof.
  revert dim. induction vars as [|var vars IH]; intros dim; simpl; [done|].
  by rewrite IH.
Qed.

(** The comprehension that builds [replace] does not raise: the name of
    every entry of the ordering is a key of [get_var]. *)
Lemma replace_items_OK (vars : list TensorVariable) (inarray : expr) :
  ∃ items,
    replace_items (get_var_of vars) inarray (vmap (ArrayOrdering_init vars)) = OK items ∧
    Forall2 (λ e kv,
      get_var_of vars !! vm_var e = Some kv.1 ∧
      kv.2 = astype (reshape_t (subtensor_slice inarray (vm_slc e)) (vm_shp e)) (vm_dtyp e))
      (vmap_from 0 vars) items.
Proof.
  simpl. unfold replace_items.
  assert (Hkeys : Forall (λ e, is_Some (get_var_of vars !! vm_var e)) (vmap_from 0 vars)).
  { apply Forall_forall. intros e He.
    assert (vm_var e ∈ name <$> vars) as (v & -> & Hv)%list_elem_of_fmap.
    { rewrite <-(vmap_from_names vars 0). apply list_elem_of_fmap. by exists e. }
    by apply get_var_of_is_Some. }
  induction Hkeys as [|[var slc shp dtyp] vm [key Hkey] _ (items & Hitems & Hall)].
  - exists []. split; [done | constructor].
  - exists ((key, astype (reshape_t (subtensor_slice inarray slc) shp) dtyp) :: items).
    simpl in *. rewrite Hkey, Hitems. split; [done|]. by constructor.
Qed.

Lemma vmap_from_length (vars : list TensorVariable) (dim : nat) :
  length (vmap_from dim vars) = length vars.
Proof. by rewrite <-(length_fmap vm_var), vmap_from_names, length_fmap. Qed.

Lemma offset_S (vars : list TensorVariable) (i : nat) (v : TensorVariable) :
  vars !! i = Some v → offset vars (S i) = offset vars i + dsize v.
Proof.
  intros Hi. unfold offset. rewrite (take_S_r _ _ _ Hi), fmap_app, sum_list_with_app.
  simpl. lia.
Qed.

Lemma offset_mono (vars : list TensorVariable) (i j : nat) :
  i ≤ j → offset vars i ≤ offset vars j.
Proof.
  induction 1 as [|j Hle IH]; [done|].
  destruct (vars !! j) as [w|] eqn:Hj.
  - rewrite (offset_S _ _ _ Hj). lia.
  - apply lookup_ge_None in Hj. unfold offset in *.
    rewrite (take_ge vars (S j)) by lia. by rewrite (take_ge vars j) in IH by lia.
Qed.

Example reshape_t_scalar (x : expr) : reshape_t x [] = Apply (SubtensorConst 0) [x].
Proof. reflexivity. Qed.

Example reshape_t_matrix (x : expr) : reshape_t x [2; 3] = Apply (Reshape [2; 3]) [x].
Proof. reflexivity. Qed.

(** C3, as stated, fails.  Two different nodes with the same name: the first
    one is left as it is in the rewritten graphs, and only the second is
    replaced by a slice. *)
Lemma same_name_not_replaced :
  example_var 1 "x" [2] ≠ example_var 2 "x" [3] ∧
  name (example_var 1 "x" [2]) = name (example_var 2 "x" [3]) ∧
  ∃ inarray,
    join_nonshared_inputs (Th:=symbolic_theano)
      [Var (example_var 1 "x" [2]); Var (example_var 2 "x" [3])]
      [example_var 1 "x" [2]; example_var 2 "x" [3]] ∅ false 7 =
      (OK ([Var (example_var 1 "x" [2]); slice_of inarray 2 (example_var 2 "x" [3])],
           inarray), 8) ∧
    Var (example_var 1 "x" [2]) ≠ slice_of inarray 0 (example_var 1 "x" [2]).
Proof.
  split; [discriminate|]. split; [reflexivity|].
  eexists. split; [vm_compute; reflexivity | discriminate].
Qed.

(** ** GeneratorOp *)

Lemma evaluations_spec (n : nat) (self : GeneratorOp) :
  evaluations n self =
  (OK (take n (pending (generator self))
       ++ replicate (n - length (pending (generator self))) (_nan self)),
   mk_GeneratorOp
     (mk_DataGenerator (gen_test_value (generator self)) (tensortype (generator self))
        (drop n (pending (generator self))))
     (itypes self) (otypes self) (_nan self)).
Proof.
  revert self. induction n as [|n IH]; intros [[tv ty xs] its ots nan]; simpl.
  - by rewrite drop_0.
  - unfold perform, DataGenerator_next. simpl. destruct xs as [|x xs]; simpl.
    + rewrite IH. simpl. rewrite Nat.sub_0_r, drop_nil. by destruct n.
    + rewrite IH. simpl. done.
Qed.

Section GeneratorProperties.
Context {Da : data_api} {Np : numpy_api}.

Lemma GeneratorOp_init_OK (gen : gen_arg) (self : GeneratorOp) :
  GeneratorOp_init gen = OK self →
  as_DataGenerator gen = OK (generator self) ∧
  itypes self = [] ∧
  otypes self = [tensortype (generator self)] ∧
  ∃ c, nan_as (arr_dtype (gen_test_value (generator self))) = OK c ∧
       _nan self = filled_like (gen_test_value (generator self)) c.
Proof.
  unfold GeneratorOp_init, fill_nan, mbind, result_bind, mret, result_ret.
  destruct (as_DataGenerator gen) as [g|e]; [|done]. simpl.
  destruct (nan_as (arr_dtype (gen_test_value g))) as [c|e] eqn:Hc; [|done].
  intros [= <-]. simpl. split_and!; [done..|].
  exists c. split; [done|]. unfold filled_like. simpl. by rewrite length_replicate.
Qed.

(** Nothing that happens to the Op after [__init__] touches [_nan] or the
    declared types. *)
Lemma bridge_step_keeps (self self' : GeneratorOp) :
  bridge_step self self' →
  _nan self' = _nan self ∧ itypes self' = itypes self ∧ otypes self' = otypes self.
Proof.
  intros [op|op gen|op cfg].
  - unfold perform. destruct (DataGenerator_next (generator op)) as [[x|[]] g]; done.
  - unfold set_gen. destruct (as_DataGenerator gen) as [g|e]; [|done].
    by case_bool_decide.
  - unfold GeneratorOp_call, change_flags, Op_call. simpl.
    destruct (otypes op) eqn:Hot; done.
Qed.

Lemma bridge_steps_keep (self self' : GeneratorOp) :
  rtc bridge_step self self' →
  _nan self' = _nan self ∧ itypes self' = itypes self ∧ otypes self' = otypes self.
Proof.
  induction 1 as [|op1 op2 op3 Hstep _ (-> & -> & ->)]; [done|].
  by apply bridge_step_keeps.
Qed.

(** C6. Setting the generator anew to a source whose tensor type is not
    that of the present one raises [ValueError] and leaves the Op as it
    was, its generator included; with the same tensor type the source
    takes the place of the present one. *)
Theorem set_gen_spec (self : GeneratorOp) (gen : gen_arg) (new : DataGenerator) :
  as_DataGenerator gen = OK new →
  set_gen self gen =
    if decide (tensortype new = tensortype (generator self))
    then (OK (), mk_GeneratorOp new (itypes self) (otypes self) (_nan self))
    else (Raise (ValueError "New generator should yield the same type"), self).
Proof.
  intros Hgen. unfold set_gen. rewrite Hgen.
  case_bool_decide; case_decide; done.
Qed.

(** C7. Calling the Op to make its node, whatever the configuration says
    about test values, leaves the Op and so the cursor of its source as
    they were, puts the configuration back, and gives the output the sample
    value held by the generator as test value. *)
Theorem GeneratorOp_call_spec (self : GeneratorOp) (cfg : config) :
  GeneratorOp_call self cfg =
    (match otypes self with
     | [] => Raise (ValueError "no output type")
     | o :: _ => OK (mk_output_variable o (Some (gen_test_value (generator self))) true)
     end, self, cfg) ∧
  pending (generator (GeneratorOp_call self cfg).1.2) = pending (generator self).
Proof.
  unfold GeneratorOp_call, change_flags, Op_call. simpl. by destruct (otypes self).
Qed.

(** Without the changed flag, Theano's call would evaluate the node once
    and so take an element from the source. *)
Lemma Op_call_advances (self : GeneratorOp) (cfg : config) :
  compute_test_value cfg ≠ ctv_off → otypes self ≠ [] →
  pending (generator (Op_call self cfg).2) = drop 1 (pending (generator self)).
Proof.
  intros Hflag Hot. unfold Op_call. destruct (otypes self) as [|o ots]; [done|].
  destruct self as [[tv ty xs] its ots' nan].
  destruct (compute_test_value cfg); [done|..];
    unfold perform, DataGenerator_next; simpl; by destruct xs.
Qed.

(** C10. [__init__] and [set_gen] given an iterator that is not a
    [DataGenerator] do what they do given the [DataGenerator] made from it
    (and raise what its constructor raises); given a [DataGenerator], they
    store it as it is, and [set_gen] compares its tensor type with that of
    the generator in place. *)
Theorem plain_iterator_wrapped (self : GeneratorOp) (it : iterator) (g : DataGenerator) :
  GeneratorOp_init (Plain it) =
    match DataGenerator_init it with
    | OK wrapped => GeneratorOp_init (Wrapped wrapped)
    | Raise e => Raise e
    end ∧
  set_gen self (Plain it) =
    match DataGenerator_init it with
    | OK wrapped => set_gen self (Wrapped wrapped)
    | Raise e => (Raise e, self)
    end ∧
  GeneratorOp_init (Wrapped g) =
    match fill_nan (zeros_like (gen_test_value g)) with
    | OK nan => OK (mk_GeneratorOp g [] [tensortype g] nan)
    | Raise e => Raise e
    end ∧
  set_gen self (Wrapped g) =
    if decide (tensortype g = tensortype (generator self))
    then (OK (), mk_GeneratorOp g (itypes self) (otypes self) (_nan self))
    else (Raise (ValueError "New generator should yield the same type"), self).
Proof.
  split_and!.
  - unfold GeneratorOp_init. simpl. by destruct (DataGenerator_init it).
  - unfold set_gen. simpl. by destruct (DataGenerator_init it).
  - done.
  - unfold set_gen. simpl. case_bool_decide; case_decide; done.
Qed.

End GeneratorProperties.

Example evaluations_a_b_nan_nan :
  GeneratorOp_init (Da:=list_data) (Np:=float_numpy) (Plain (Da:=list_data) [example_a; example_b])
    = OK example_op ∧
  (evaluations 4 example_op).1 =
    OK [example_a; example_b; nan_like example_a; nan_like example_a].
Proof. split; reflexivity. Qed.

Example set_gen_other_ndim :
  set_gen (Da:=list_data) example_op
    (Plain (Da:=list_data) [mk_ndarray "float64" [1; 2] [Num 5; Num 6]])
  = (Raise (ValueError "New generator should yield the same type"), example_op).
Proof. reflexivity. Qed.

Example GeneratorOp_init_integers :
  GeneratorOp_init (Da:=list_data) (Np:=float_numpy)
    (Plain (Da:=list_data) [mk_ndarray "int64" [2] [Num 1; Num 2]])
  = Raise (ValueError "cannot convert float NaN to integer").
Proof. reflexivity. Qed.

Lemma set_gen_spec_witness :
  as_DataGenerator (Da:=list_data) (Plain (Da:=list_data) [example_b])
    = OK (mk_DataGenerator example_b example_type [example_b]) ∧
  set_gen (Da:=list_data) example_op (Plain (Da:=list_data) [example_b]) =
    if decide (tensortype (mk_DataGenerator example_b example_type [example_b])
               = tensortype (generator example_op))
    then (OK (), mk_GeneratorOp (mk_DataGenerator example_b example_type [example_b])
                   (itypes example_op) (otypes example_op) (_nan example_op))
    else (Raise (ValueError "New generator should yield the same type"), example_op).
Proof.
  split; [reflexivity|].
  apply (set_gen_spec (Da:=list_data) example_op (Plain (Da:=list_data) [example_b])
           (mk_DataGenerator example_b example_type [example_b])).
  reflexivity.
Defined.

(** * Further properties *)

(** ** Inputs and cloning *)

Lemma leaves_clone (x : expr) (replace : gmap TensorVariable expr) :
  leaves (clone x replace) = leaves x ≫= subst_leaf replace.
Proof.
  induction x as [v|s|c|op args IH] using expr_ind'; simpl.
  - destruct (replace !! v); simpl; by rewrite ?app_nil_r.
  - done.
  - done.
  - induction IH as [|a args Ha _ IHargs]; simpl; [done|].
    rewrite bind_app. f_equal; [apply Ha | apply IHargs].
Qed.

Lemma clone_unmapped (x : expr) (replace : gmap TensorVariable expr) :
  (∀ v, Var v ∈ leaves x → replace !! v = None) → clone x replace = x.
Proof.
  induction x as [v|s|c|op args IH] using expr_ind'; simpl; intros Hnone.
  - rewrite Hnone; [done | apply list_elem_of_singleton; done].
  - done.
  - done.
  - f_equal. induction IH as [|a args Ha _ IHargs]; simpl; [done|].
    simpl in Hnone. f_equal.
    + apply Ha. intros v Hv. apply Hnone. apply elem_of_app. by left.
    + apply IHargs. intros v Hv. apply Hnone. apply elem_of_app. by right.
Qed.

Lemma clone_to_itself (x : expr) (v : TensorVariable) :
  clone x {[v := Var v]} = x.
Proof.
  induction x as [w|s|c|op args IH] using expr_ind'; simpl.
  - destruct (decide (v = w)) as [->|Hne].
    + by rewrite lookup_singleton_eq.
    + by rewrite lookup_singleton_ne.
  - done.
  - done.
  - f_equal. induction IH as [|a args Ha _ IHargs]; simpl; [done|].
    f_equal; [apply Ha | apply IHargs].
Qed.

Lemma Var_in_leaves_is_leaf (x e : expr) :
  e ∈ leaves x → match e with Apply _ _ => False | _ => True end.
Proof.
  induction x as [v|s|c|op args IH] using expr_ind'; simpl.
  - by intros ->%list_elem_of_singleton.
  - by intros ->%list_elem_of_singleton.
  - by intros ->%list_elem_of_singleton.
  - intros (l & Hl & (a & -> & Ha)%list_elem_of_fmap)%list_elem_of_join.
    rewrite Forall_forall in IH. by apply (IH a).
Qed.

(** X1. For one graph or a list of graphs, [inputvars] returns every
    [TensorVariable] that occurs as a node without owner in one of the
    graphs, each exactly once; shared variables and constants contribute
    nothing, and a list of graphs gives the variables of all of them. *)
Theorem inputvars_spec (a : pyarg) (xs ys : list expr) :
  NoDup (inputvars a) ∧
  (∀ v, v ∈ inputvars a ↔ ∃ x, x ∈ makeiter a ∧ Var v ∈ leaves x) ∧
  (∀ v, v ∈ inputvars (Many (xs ++ ys)) ↔
        v ∈ inputvars (Many xs) ∨ v ∈ inputvars (Many ys)) ∧
  (∀ s, inputvars (One (Shared s)) = []) ∧
  (∀ c, inputvars (One (Const c)) = []).
Proof.
  split_and!.
  - apply NoDup_inputvars.
  - apply elem_of_inputvars.
  - intros v. rewrite !elem_of_inputvars. simpl. setoid_rewrite elem_of_app.
    split.
    + intros (x & [Hx|Hx] & Hv); [left | right]; by exists x.
    + intros [(x & Hx & Hv)|(x & Hx & Hv)]; exists x; auto.
  - done.
  - done.
Qed.

(** ** CallableTensor *)

(** X2. A [CallableTensor] called with its own input variable returns the
    wrapped graph itself. *)
Theorem CallableTensor_call_own_input (self : CallableTensor) (oldinput : TensorVariable) :
  inputvars (One (tensor self)) = [oldinput] →
  CallableTensor_call self (Var oldinput) = OK (tensor self).
Proof.
  intros Hin. unfold CallableTensor_call. rewrite Hin. simpl.
  unfold mret, result_ret. by rewrite clone_to_itself.
Qed.

Lemma CallableTensor_call_own_input_witness :
  inputvars (One (tensor (mk_CallableTensor
     (Apply (Elemwise "mul") [Var (example_var 1 "x" []); Var (example_var 1 "x" [])]))))
    = [example_var 1 "x" []] ∧
  CallableTensor_call
    (mk_CallableTensor
       (Apply (Elemwise "mul") [Var (example_var 1 "x" []); Var (example_var 1 "x" [])]))
    (Var (example_var 1 "x" []))
  = OK (tensor (mk_CallableTensor
       (Apply (Elemwise "mul") [Var (example_var 1 "x" []); Var (example_var 1 "x" [])]))).
Proof.
  split; [vm_compute; reflexivity|].
  apply (CallableTensor_call_own_input
           (mk_CallableTensor
              (Apply (Elemwise "mul") [Var (example_var 1 "x" []); Var (example_var 1 "x" [])]))
           (example_var 1 "x" [])).
  vm_compute. reflexivity.
Defined.

(** X3. When a call of a [CallableTensor] succeeds, the input variables of
    the graph it returns are those of the argument: the one variable of the
    wrapped graph is gone, unless the argument brings it back. *)
Theorem CallableTensor_call_inputs (self : CallableTensor) (input result : expr) :
  CallableTensor_call self input = OK result →
  ∀ v, v ∈ inputvars (One result) ↔ v ∈ inputvars (One input).
Proof.
  unfold CallableTensor_call. intros Hcall v.
  destruct (inputvars (One (tensor self))) as [|old [|w l]] eqn:Hin; simpl in Hcall;
    [done | | done].
  injection Hcall as <-.
  assert (Hold : ∀ u, Var u ∈ leaves (tensor self) ↔ u = old).
  { intros u. rewrite <-(list_elem_of_singleton u old), <-Hin, elem_of_inputvars. simpl.
    setoid_rewrite list_elem_of_singleton.
    split; [intros Hu; by exists (tensor self) | by intros (x & -> & Hu)]. }
  rewrite !elem_of_inputvars. simpl. setoid_rewrite list_elem_of_singleton.
  split.
  - intros (x & -> & Hv). rewrite leaves_clone in Hv.
    apply list_elem_of_bind in Hv as (e & Hv & He).
    exists input. split; [done|].
    destruct e as [u| | |]; simpl in Hv.
    + apply Hold in He as ->. by rewrite lookup_singleton_eq in Hv.
    + by apply list_elem_of_singleton in Hv.
    + by apply list_elem_of_singleton in Hv.
    + by apply Var_in_leaves_is_leaf in He.
  - intros (x & -> & Hv). eexists. split; [done|]. rewrite leaves_clone.
    apply list_elem_of_bind. exists (Var old). split.
    + simpl. by rewrite lookup_singleton_eq.
    + by apply Hold.
Qed.

Lemma CallableTensor_call_inputs_witness :
  CallableTensor_call
    (mk_CallableTensor
       (Apply (Elemwise "mul") [Var (example_var 1 "x" []); Var (example_var 1 "x" [])]))
    (Var (example_var 2 "y" []))
  = OK (Apply (Elemwise "mul") [Var (example_var 2 "y" []); Var (example_var 2 "y" [])]) ∧
  ∀ v, v ∈ inputvars (One (Apply (Elemwise "mul")
                             [Var (example_var 2 "y" []); Var (example_var 2 "y" [])]))
       ↔ v ∈ inputvars (One (Var (example_var 2 "y" []))).
Proof.
  split; [vm_compute; reflexivity|].
  apply (CallableTensor_call_inputs
           (mk_CallableTensor
              (Apply (Elemwise "mul") [Var (example_var 1 "x" []); Var (example_var 1 "x" [])]))
           (Var (example_var 2 "y" []))).
  vm_compute. reflexivity.
Defined.

(** ** Derivatives with the variables left out *)

Section DefaultVariables.
Context {Th : theano_api} {Vt : vartypes_api}.

Lemma cont_inputs_nil (f : expr) :
  (∀ v, Var v ∈ leaves f → var_dtype v ∉ continuous_types) →
  cont_inputs (One f) = [].
Proof.
  intros Hnone. apply elem_of_nil_inv. intros v Hv.
  unfold cont_inputs, typefilter in Hv.
  apply list_elem_of_filter in Hv as [Hty Hv].
  apply elem_of_inputvars in Hv as (x & ->%list_elem_of_singleton & Hv).
  by apply (Hnone v).
Qed.

(** X4. Leaving [vars] out of [gradient], [jacobian] or [hessian_diag] is
    the same as passing the continuous inputs of [f]: the call returns what
    the call with [cont_inputs(f)] returns, whatever calls were made
    before. *)
Theorem default_vars_cont_inputs (history : list memo_call) (f : expr) :
  (gradient f None (caches_after history)).1 =
    (gradient f (Some (cont_inputs (One f))) (caches_after history)).1 ∧
  (jacobian f None (caches_after history)).1 =
    (jacobian f (Some (cont_inputs (One f))) (caches_after history)).1 ∧
  (hessian_diag f None (caches_after history)).1 =
    (hessian_diag f (Some (cont_inputs (One f))) (caches_after history)).1.
Proof.
  pose proof (caches_after_ok history) as Hok.
  destruct (gradient_ok f None _ Hok) as [-> _].
  destruct (gradient_ok f (Some (cont_inputs (One f))) _ Hok) as [-> _].
  destruct (jacobian_ok f None _ Hok) as [-> _].
  destruct (jacobian_ok f (Some (cont_inputs (One f))) _ Hok) as [-> _].
  destruct (hessian_diag_ok f None _ Hok) as [-> _].
  destruct (hessian_diag_ok f (Some (cont_inputs (One f))) _ Hok) as [-> _].
  done.
Qed.

(** X5. [hessian] passes [vars] on as it got it.  With [vars] left out, the
    gradient is taken with respect to the continuous inputs of [f], and its
    jacobian with respect to the continuous inputs of the gradient graph,
    which [jacobian] looks up on its own; with [vars] given, both use
    [vars]. *)
Theorem hessian_default_vars (history : list memo_call) (f : expr)
    (vars : list TensorVariable) :
  (hessian f None (caches_after history)).1 =
    tt_neg (jacobian_body (gradient_body f (Some (cont_inputs (One f))))
              (Some (cont_inputs (One (gradient_body f (Some (cont_inputs (One f)))))))) ∧
  (hessian f (Some vars) (caches_after history)).1 =
    tt_neg (jacobian_body (gradient_body f (Some vars)) (Some vars)).
Proof.
  pose proof (caches_after_ok history) as Hok.
  destruct (hessian_ok f None _ Hok) as [-> _].
  destruct (hessian_ok f (Some vars) _ Hok) as [-> _].
  done.
Qed.

(** X6. A graph without any input variable of a continuous type (built from
    shared variables and constants only, say) and [vars] left out:
    [gradient], [jacobian] and [hessian_diag] return [empty_gradient], and
    [hessian] its negation; nothing is differentiated. *)
Theorem no_continuous_input (history : list memo_call) (f : expr) :
  (∀ v, Var v ∈ leaves f → var_dtype v ∉ continuous_types) →
  (gradient f None (caches_after history)).1 = empty_gradient ∧
  (jacobian f None (caches_after history)).1 = empty_gradient ∧
  (hessian_diag f None (caches_after history)).1 = empty_gradient ∧
  (hessian f None (caches_after history)).1 = tt_neg empty_gradient.
Proof.
  intros Hnone%cont_inputs_nil.
  pose proof (caches_after_ok history) as Hok.
  destruct (gradient_ok f None _ Hok) as [-> _].
  destruct (jacobian_ok f None _ Hok) as [-> _].
  destruct (hessian_diag_ok f None _ Hok) as [-> _].
  destruct (hessian_ok f None _ Hok) as [-> _].
  unfold gradient_body, jacobian_body, hessian_diag_body. rewrite Hnone.
  split_and!; done.
Qed.

(** X17. What a memoized function returns does not depend on the calls
    made before: after any two histories, [gradient], [jacobian], [hessian]
    and [hessian_diag] return the same graph for the same arguments. *)
Theorem results_independent_of_history (history history' : list memo_call) (f : expr)
    (vars : option (list TensorVariable)) :
  (gradient f vars (caches_after history)).1
    = (gradient f vars (caches_after history')).1 ∧
  (jacobian f vars (caches_after history)).1
    = (jacobian f vars (caches_after history')).1 ∧
  (hessian f vars (caches_after history)).1
    = (hessian f vars (caches_after history')).1 ∧
  (hessian_diag f vars (caches_after history)).1
    = (hessian_diag f vars (caches_after history')).1.
Proof.
  pose proof (caches_after_ok history) as Hok.
  pose proof (caches_after_ok history') as Hok'.
  destruct (gradient_ok f vars _ Hok) as [-> _].
  destruct (gradient_ok f vars _ Hok') as [-> _].
  destruct (jacobian_ok f vars _ Hok) as [-> _].
  destruct (jacobian_ok f vars _ Hok') as [-> _].
  destruct (hessian_ok f vars _ Hok) as [-> _].
  destruct (hessian_ok f vars _ Hok') as [-> _].
  destruct (hessian_diag_ok f vars _ Hok) as [-> _].
  destruct (hessian_diag_ok f vars _ Hok') as [-> _].
  done.
Qed.

End DefaultVariables.

(** With gradients that are constants, the two ways of calling [hessian]
    part: left to itself, [jacobian] finds no input in the gradient graph. *)
Example hessian_default_differs :
  (hessian (Th:=constant_grad_theano) (Vt:=float_vartypes)
     (Var (example_var 1 "x" [2])) None no_caches).1
    = tt_neg empty_gradient ∧
  (hessian (Th:=constant_grad_theano) (Vt:=float_vartypes)
     (Var (example_var 1 "x" [2])) None no_caches).1
    ≠ (hessian (Th:=constant_grad_theano) (Vt:=float_vartypes)
         (Var (example_var 1 "x" [2]))
         (Some (cont_inputs (Vt:=float_vartypes) (One (Var (example_var 1 "x" [2])))))
         no_caches).1.
Proof. split; [vm_compute; reflexivity | vm_compute; discriminate]. Qed.

Lemma no_continuous_input_witness :
  (∀ v, Var v ∈ leaves (Apply (Elemwise "exp") [Shared (mk_SharedVariable 3 "s" example_a)])
        → var_dtype v ∉ continuous_types (vartypes_api:=float_vartypes)) ∧
  (gradient (Th:=symbolic_theano) (Vt:=float_vartypes)
     (Apply (Elemwise "exp") [Shared (mk_SharedVariable 3 "s" example_a)]) None
     (caches_after (Th:=symbolic_theano) (Vt:=float_vartypes) [])).1 = empty_gradient ∧
  (jacobian (Th:=symbolic_theano) (Vt:=float_vartypes)
     (Apply (Elemwise "exp") [Shared (mk_SharedVariable 3 "s" example_a)]) None
     (caches_after (Th:=symbolic_theano) (Vt:=float_vartypes) [])).1 = empty_gradient ∧
  (hessian_diag (Th:=symbolic_theano) (Vt:=float_vartypes)
     (Apply (Elemwise "exp") [Shared (mk_SharedVariable 3 "s" example_a)]) None
     (caches_after (Th:=symbolic_theano) (Vt:=float_vartypes) [])).1 = empty_gradient ∧
  (hessian (Th:=symbolic_theano) (Vt:=float_vartypes)
     (Apply (Elemwise "exp") [Shared (mk_SharedVariable 3 "s" example_a)]) None
     (caches_after (Th:=symbolic_theano) (Vt:=float_vartypes) [])).1 = tt_neg empty_gradient.
Proof.
  assert (Hnone : ∀ v,
    Var v ∈ leaves (Apply (Elemwise "exp") [Shared (mk_SharedVariable 3 "s" example_a)])
    → var_dtype v ∉ continuous_types (vartypes_api:=float_vartypes)).
  { intros v Hv. simpl in Hv. apply list_elem_of_singleton in Hv. discriminate Hv. }
  split; [exact Hnone|].
  apply (no_continuous_input (Th:=symbolic_theano) (Vt:=float_vartypes) []
           (Apply (Elemwise "exp") [Shared (mk_SharedVariable 3 "s" example_a)]) Hnone).
Defined.

(** ** Joining the inputs: which variables are replaced *)

(** A dictionary built from items holds, for a key, the value of the last
    item with that key. *)
Lemma dict_of_lookup_last {K V} `{Countable K} (items : list (K * V)) (k : K) (v : V) :
  dict_of items !! k = Some v ↔
  ∃ i, items !! i = Some (k, v) ∧ ∀ j kv, i < j → items !! j = Some kv → kv.1 ≠ k.
Proof.
  induction items as [|[k' v'] items IH] using rev_ind.
  - unfold dict_of. simpl. rewrite lookup_empty. split; [done|].
    intros (i & Hi & _). by rewrite lookup_nil in Hi.
  - unfold dict_of in *. rewrite foldl_snoc. simpl.
    destruct (decide (k' = k)) as [->|Hne].
    + rewrite lookup_insert_eq. split.
      * intros [= ->]. exists (length items). split.
        -- by rewrite lookup_app_r, Nat.sub_diag by lia.
        -- intros j kv Hij Hj. apply lookup_lt_Some in Hj.
           rewrite length_app in Hj. simpl in Hj. lia.
      * intros (i & Hi & Hlast).
        destruct (decide (i < length items)) as [Hlt|Hge].
        -- exfalso. apply (Hlast (length items) (k, v')); [done | | done].
           by rewrite lookup_app_r, Nat.sub_diag by lia.
        -- pose proof (lookup_lt_Some _ _ _ Hi) as Hi'.
           rewrite length_app in Hi'. simpl in Hi'.
           assert (i = length items) as -> by lia.
           rewrite lookup_app_r, Nat.sub_diag in Hi by lia. simpl in Hi. congruence.
    + rewrite lookup_insert_ne by done. rewrite IH. split.
      * intros (i & Hi & Hlast). exists i. split.
        -- rewrite lookup_app_l; [done | by eapply lookup_lt_Some].
        -- intros j kv Hij Hj. destruct (decide (j < length items)) as [Hlt|Hge].
           ++ rewrite lookup_app_l in Hj by done. by eapply Hlast.
           ++ pose proof (lookup_lt_Some _ _ _ Hj) as Hj'.
              rewrite length_app in Hj'. simpl in Hj'.
              assert (j = length items) as -> by lia.
              rewrite lookup_app_r, Nat.sub_diag in Hj by lia. simpl in Hj.
              injection Hj as <-. done.
      * intros (i & Hi & Hlast).
        pose proof (lookup_lt_Some _ _ _ Hi) as Hi'.
        rewrite length_app in Hi'. simpl in Hi'.
        destruct (decide (i < length items)) as [Hlt|Hge].
        -- exists i. rewrite lookup_app_l in Hi by done. split; [done|].
           intros j kv Hij Hj. apply (Hlast j kv Hij).
           rewrite lookup_app_l; [done | by eapply lookup_lt_Some].
        -- assert (i = length items) as -> by lia.
           rewrite lookup_app_r, Nat.sub_diag in Hi by lia. simpl in Hi. congruence.
Qed.

(** [get_var] holds, for a name, the last variable of [vars] with that
    name. *)
Lemma get_var_of_last (vars : list TensorVariable) (n : string) (v : TensorVariable) :
  get_var_of vars !! n = Some v ↔ ∃ i, last_of_its_name vars i v ∧ name v = n.
Proof.
  unfold get_var_of. rewrite dict_of_lookup_last. unfold last_of_its_name. split.
  - intros (i & Hi & Hlast). rewrite list_lookup_fmap in Hi.
    destruct (vars !! i) as [w|] eqn:Hw; [|done]. simpl in Hi. injection Hi as <- <-.
    exists i. split; [|done]. split; [done|].
    intros j u Hij Hj. apply (Hlast j (name u, u) Hij).
    by rewrite list_lookup_fmap, Hj.
  - intros (i & [Hi Hlast] & <-). exists i. split.
    + by rewrite list_lookup_fmap, Hi.
    + intros j [n' u] Hij Hj. rewrite list_lookup_fmap in Hj.
      destruct (vars !! j) as [w|] eqn:Hw; [|done]. simpl in Hj. injection Hj as <- <-.
      simpl. by eapply Hlast.
Qed.

(** The items of the comprehension: the key of the [i]-th is the last
    variable with the name of the [i]-th variable, the value the slice of
    the [i]-th variable. *)
Lemma replace_items_lookup (vars : list TensorVariable) (inarray : expr)
    (items : list (TensorVariable * expr)) (i : nat) (u : TensorVariable) (r : expr) :
  replace_items (get_var_of vars) inarray (vmap_from 0 vars) = OK items →
  items !! i = Some (u, r) ↔
  ∃ v l, vars !! i = Some v ∧ last_of_its_name vars l u ∧ name u = name v ∧
         r = slice_of inarray (offset vars i) v.
Proof.
  intros Hitems%comprehension_OK. split.
  - intros Hi.
    destruct (Forall2_lookup_r _ _ _ _ _ Hitems Hi) as (e & He & Hf).
    assert (is_Some (vars !! i)) as [v Hv].
    { apply lookup_lt_is_Some. rewrite <-(vmap_from_length vars 0).
      by eapply lookup_lt_Some. }
    rewrite (vmap_from_lookup _ _ _ _ Hv) in He. injection He as <-. simpl in Hf.
    destruct (get_var_of vars !! name v) as [key|] eqn:Hkey; [|done].
    injection Hf as <- <-. apply get_var_of_last in Hkey as (l & Hl & Hname).
    exists v, l. done.
  - intros (v & l & Hv & Hl & Hname & ->).
    pose proof (vmap_from_lookup _ 0 _ _ Hv) as He.
    destruct (Forall2_lookup_l _ _ _ _ _ Hitems He) as ([key r] & Hkr & Hf).
    simpl in Hf. rewrite Hkr.
    assert (get_var_of vars !! name v = Some u) as Hkey.
    { apply get_var_of_last. by exists l. }
    rewrite Hkey in Hf. by injection Hf as <- <-.
Qed.

Lemma last_of_its_name_unique (vars : list TensorVariable) (i j : nat)
    (u v : TensorVariable) :
  last_of_its_name vars i u → last_of_its_name vars j v → name u = name v →
  i = j ∧ u = v.
Proof.
  intros [Hi Hlasti] [Hj Hlastj] Hname.
  destruct (decide (i = j)) as [->|Hne]; [split; congruence|].
  destruct (decide (i < j)).
  - exfalso. by apply (Hlasti j v).
  - exfalso. apply (Hlastj i u); [lia | done | done].
Qed.

Section JoinFurther.
Context {Th : theano_api}.

Lemma join_nonshared_inputs_nil (xs : list expr) (shared : gmap TensorVariable expr)
    (make_shared : bool) (h : nat) :
  join_nonshared_inputs xs [] shared make_shared h
  = (Raise (ValueError "Cannot join an empty list of tensors"), h).
Proof. reflexivity. Qed.

(** What [join_nonshared_inputs] returns for variables, in terms of the
    items of the comprehension. *)
Lemma join_nonshared_inputs_items (xs : list expr) (vars : list TensorVariable)
    (shared : gmap TensorVariable expr) (make_shared : bool) (h : nat) :
  vars ≠ [] →
  ∃ items,
    replace_items (get_var_of vars)
      (make_inarray (tt_concatenate ((λ var, ravel (Var var)) <$> vars) 0) make_shared h).1
      (vmap_from 0 vars) = OK items ∧
    join_replace vars shared
      (make_inarray (tt_concatenate ((λ var, ravel (Var var)) <$> vars) 0) make_shared h).1
      = OK (dict_update (dict_of items) shared) ∧
    join_nonshared_inputs xs vars shared make_shared h =
      (OK ((λ x, clone x (dict_update (dict_of items) shared)) <$> xs,
           (make_inarray (tt_concatenate ((λ var, ravel (Var var)) <$> vars) 0)
              make_shared h).1), S h).
Proof.
  intros Hvars.
  set (joined := tt_concatenate ((λ var, ravel (Var var)) <$> vars) 0).
  destruct (replace_items_OK vars (make_inarray joined make_shared h).1)
    as (items & Hitems & _).
  simpl in Hitems. exists items. split; [done|].
  assert (Hrepl : join_replace vars shared (make_inarray joined make_shared h).1
                  = OK (dict_update (dict_of items) shared)).
  { unfold join_replace. simpl. by rewrite Hitems. }
  split; [done|].
  unfold join_nonshared_inputs.
  assert (tt_concatenate_call ((λ var, ravel (Var var)) <$> vars) 0 = OK joined) as ->
    by (by destruct vars).
  unfold mbind at 1, stateful_bind.
  assert ((make_inarray joined make_shared h).2 = S h) as Hh
    by (unfold make_inarray; by destruct make_shared).
  destruct (make_inarray joined make_shared h) as [inarray h'] eqn:Hin.
  simpl in *. subst h'. by rewrite Hrepl.
Qed.

(** Which variables the comprehension gives an entry, and which entry. *)
Lemma dict_of_items_lookup (vars : list TensorVariable) (inarray : expr)
    (items : list (TensorVariable * expr)) (u : TensorVariable) (r : expr) :
  replace_items (get_var_of vars) inarray (vmap_from 0 vars) = OK items →
  dict_of items !! u = Some r ↔
  ∃ i, last_of_its_name vars i u ∧ r = slice_of inarray (offset vars i) u.
Proof.
  intros Hitems. rewrite dict_of_lookup_last. split.
  - intros (i & Hi & Hlast).
    apply (replace_items_lookup _ _ _ _ _ _ Hitems) in Hi
      as (v & l & Hv & Hl & Hname & ->).
    assert (last_of_its_name vars i v) as Hiv.
    { split; [done|]. intros j w Hij Hj Hw. destruct Hl as [Hlu Hlastl].
      destruct (decide (l < j)) as [Hlj|Hlj].
      - apply (Hlastl j w Hlj Hj). congruence.
      - apply (Hlast j (u, slice_of inarray (offset vars j) w) Hij); [|done].
        apply (replace_items_lookup _ _ _ _ _ _ Hitems).
        exists w, l. split_and!; [done | done | congruence | done]. }
    destruct (last_of_its_name_unique _ _ _ _ _ Hl Hiv Hname) as [-> ->].
    by exists i.
  - intros (i & Hi & ->). exists i. split.
    + apply (replace_items_lookup _ _ _ _ _ _ Hitems).
      exists u, i. split_and!; [apply Hi | done | done | done].
    + intros j [key r] Hij Hj.
      apply (replace_items_lookup _ _ _ _ _ _ Hitems) in Hj
        as (w & l & Hw & Hl & Hname & ->).
      simpl. intros ->. destruct Hi as [_ Hlast]. by apply (Hlast j w).
Qed.

(** X7. Whatever the names of [vars], the dictionary [replace] maps a
    variable that [shared] maps to its entry of [shared], and any other
    variable to a slice exactly when it is the last variable of [vars]
    with its name; the slice is then the variable's own.  A variable of
    [vars] that a later one shares its name with is not replaced at all. *)
Theorem join_replace_spec (vars : list TensorVariable) (shared : gmap TensorVariable expr)
    (inarray : expr) :
  ∃ replace,
    join_replace vars shared inarray = OK replace ∧
    (∀ u e, shared !! u = Some e → replace !! u = Some e) ∧
    (∀ u r, shared !! u = None →
       (replace !! u = Some r ↔
        ∃ i, last_of_its_name vars i u ∧ r = slice_of inarray (offset vars i) u)).
Proof.
  destruct (replace_items_OK vars inarray) as (items & Hitems & _). simpl in Hitems.
  exists (dict_update (dict_of items) shared). split_and!.
  - unfold join_replace. simpl. by rewrite Hitems.
  - intros u e Hu. unfold dict_update. by apply lookup_union_Some_l.
  - intros u r Hu. unfold dict_update. rewrite lookup_union_r by done.
    by apply dict_of_items_lookup.
Qed.

End JoinFurther.

(** ** Joining the inputs: what the rewritten graphs depend on *)

Lemma leaves_slice_of (inarray : expr) (start : nat) (v : TensorVariable) :
  leaves (slice_of inarray start v) = leaves inarray.
Proof.
  unfold slice_of, reshape_t. case_decide; simpl; by rewrite !app_nil_r.
Qed.

Lemma NoDup_names_last (vars : list TensorVariable) (i : nat) (v : TensorVariable) :
  NoDup (name <$> vars) → vars !! i = Some v → last_of_its_name vars i v.
Proof.
  intros Hnd Hi. split; [done|]. intros j w Hij Hj Hname.
  assert (i = j); [|lia].
  apply (NoDup_lookup _ _ _ (name v) Hnd).
  - by rewrite list_lookup_fmap, Hi.
  - rewrite list_lookup_fmap, Hj. simpl. by rewrite Hname.
Qed.

Lemma make_shared_replacements_lookup (vars : list TensorVariable) (model : Model)
    (h : nat) (v : TensorVariable) :
  v ∈ model_vars model → v ∉ vars →
  ∃ s, (make_shared_replacements vars model h).1 !! v = Some s.
Proof.
  intros Hmodel Hvars. unfold make_shared_replacements.
  set (othervars := list_to_set (model_vars model) ∖ list_to_set vars : gset TensorVariable).
  assert (v ∈ elements othervars) as [i Hi]%list_elem_of_lookup.
  { apply elem_of_elements. unfold othervars. set_solver. }
  exists (placeholder h i v). apply shared_of_lookup; [apply NoDup_elements | done].
Qed.

Section JoinInputs.
Context {Th : theano_api}.

Lemma make_inarray_cases (joined : expr) (make_shared : bool) (h : nat) :
  match (make_inarray joined make_shared h).1 with
  | Var v =>
      make_shared = false ∧ vid v = h ∧ name v = "inarray" ∧
      ttype v = expr_type joined ∧ test_value v = expr_test_value joined
  | Shared s =>
      make_shared = true ∧ sid s = h ∧ sname s = "inarray" ∧
      svalue s = expr_test_value joined
  | _ => False
  end.
Proof. destruct make_shared; simpl; done. Qed.

(** The rewritten graphs have no input variable but the flat input. *)
Lemma join_inputs_eliminated (xs : list expr) (vars : list TensorVariable)
    (shared : gmap TensorVariable expr) (make_shared : bool) (h : nat) :
  vars ≠ [] →
  NoDup (name <$> vars) →
  (∀ u e w, shared !! u = Some e → Var w ∉ leaves e) →
  (∀ v, v ∈ inputvars (Many xs) → v ∈ vars ∨ is_Some (shared !! v)) →
  ∃ xs' inarray,
    join_nonshared_inputs xs vars shared make_shared h = (OK (xs', inarray), S h) ∧
    ∀ u, u ∈ inputvars (Many xs') → make_shared = false ∧ inarray = Var u.
Proof.
  intros Hvars Hnd Hshared Hinputs.
  destruct (join_nonshared_inputs_items xs vars shared make_shared h Hvars)
    as (items & Hitems & _ & Hjoin).
  set (inarray := (make_inarray (tt_concatenate ((λ var, ravel (Var var)) <$> vars) 0)
                     make_shared h).1) in *.
  eexists _, inarray. split; [exact Hjoin|].
  intros u (x' & (x & -> & Hx)%list_elem_of_fmap & Hu)%elem_of_inputvars.
  rewrite leaves_clone in Hu. apply list_elem_of_bind in Hu as (e & Hu & He).
  assert (Hleaf : Var u ∈ leaves inarray →
                  make_shared = false ∧ inarray = Var u).
  { pose proof (make_inarray_cases
      (tt_concatenate ((λ var, ravel (Var var)) <$> vars) 0) make_shared h) as Hcases.
    fold inarray in Hcases. destruct inarray as [iv|s| |]; simpl; [| |done..].
    - intros ->%list_elem_of_singleton. by destruct Hcases as [-> _].
    - by intros ?%list_elem_of_singleton. }
  destruct e as [v|s|c|op args]; simpl in Hu.
  - assert (v ∈ inputvars (Many xs)) as Hv
      by (apply elem_of_inputvars; by exists x).
    unfold dict_update in Hu.
    destruct (shared !! v) as [e|] eqn:Hsh.
    + rewrite (lookup_union_Some_l _ _ _ _ Hsh) in Hu.
      exfalso. by apply (Hshared v e u Hsh).
    + rewrite lookup_union_r in Hu by done.
      destruct (Hinputs v Hv) as [[i Hi]%list_elem_of_lookup|[? ?]]; [|congruence].
      assert (dict_of items !! v = Some (slice_of inarray (offset vars i) v)) as Hrepl.
      { apply (dict_of_items_lookup _ _ _ _ _ Hitems). exists i.
        split; [by apply NoDup_names_last | done]. }
      rewrite Hrepl, leaves_slice_of in Hu. by apply Hleaf.
  - by apply list_elem_of_singleton in Hu.
  - by apply list_elem_of_singleton in Hu.
  - by apply Var_in_leaves_is_leaf in He.
Qed.

(** X8. [join_nonshared_inputs] raises exactly when [vars] is empty: the
    [ValueError] of [tt.concatenate], before any node is made.  For any
    other [vars], whatever their names (no [KeyError] from [get_var]), it
    returns as many graphs as it was given and makes exactly one new node,
    the flat input named "inarray": a symbolic variable of the type of the
    joined vector, or with [make_shared] a shared variable that holds its
    test value. *)
Theorem join_nonshared_inputs_returns (xs : list expr) (vars : list TensorVariable)
    (shared : gmap TensorVariable expr) (make_shared : bool) (h : nat) :
  match vars with
  | [] =>
      join_nonshared_inputs xs vars shared make_shared h
      = (Raise (ValueError "Cannot join an empty list of tensors"), h)
  | _ :: _ =>
      ∃ xs' inarray,
        join_nonshared_inputs xs vars shared make_shared h = (OK (xs', inarray), S h) ∧
        length xs' = length xs ∧
        match inarray with
        | Var v =>
            make_shared = false ∧ vid v = h ∧ name v = "inarray" ∧
            ttype v = expr_type (tt_concatenate ((λ var, ravel (Var var)) <$> vars) 0) ∧
            test_value v
              = expr_test_value (tt_concatenate ((λ var, ravel (Var var)) <$> vars) 0)
        | Shared s =>
            make_shared = true ∧ sid s = h ∧ sname s = "inarray" ∧
            svalue s = expr_test_value (tt_concatenate ((λ var, ravel (Var var)) <$> vars) 0)
        | _ => False
        end
  end.
Proof.
  destruct vars as [|v0 vars0] eqn:Hvars; [reflexivity|]. rewrite <-Hvars.
  assert (vars ≠ []) as Hne by (by rewrite Hvars).
  destruct (join_nonshared_inputs_items xs vars shared make_shared h Hne)
    as (items & _ & _ & Hjoin).
  eexists _, _. split; [exact Hjoin|]. split.
  - by rewrite length_fmap.
  - apply make_inarray_cases.
Qed.

(** X9. With [vars] not empty, a graph that mentions no variable of [vars]
    and no key of [shared] comes back as it was: a mapped variable that
    does not occur is no error. *)
Theorem join_nonshared_inputs_untouched (xs : list expr) (vars : list TensorVariable)
    (shared : gmap TensorVariable expr) (make_shared : bool) (h k : nat) (x : expr) :
  vars ≠ [] →
  xs !! k = Some x →
  (∀ v, Var v ∈ leaves x → (v ∉ vars) ∧ shared !! v = None) →
  ∃ xs' inarray,
    join_nonshared_inputs xs vars shared make_shared h = (OK (xs', inarray), S h) ∧
    xs' !! k = Some x.
Proof.
  intros Hne Hk Hfree.
  destruct (join_nonshared_inputs_items xs vars shared make_shared h Hne)
    as (items & Hitems & _ & Hjoin).
  eexists _, _. split; [exact Hjoin|].
  rewrite list_lookup_fmap, Hk. simpl. f_equal. apply clone_unmapped.
  intros v Hv. destruct (Hfree v Hv) as [Hvars Hsh]. unfold dict_update.
  rewrite lookup_union_r by done.
  destruct (dict_of items !! v) as [r|] eqn:Hr; [|done].
  apply (dict_of_items_lookup _ _ _ _ _ Hitems) in Hr as (i & [Hi _] & _).
  exfalso. apply Hvars. by eapply list_elem_of_lookup_2.
Qed.

(** X10. When [vars] is not empty and its names differ from one another,
    [shared] maps to graphs without input variables (shared variables,
    say), and every input variable of the given graphs is in [vars] or a
    key of [shared], the rewritten graphs have at most one input variable:
    the flat input, and with [make_shared] none at all. *)
Theorem join_nonshared_inputs_only_inarray (xs : list expr) (vars : list TensorVariable)
    (shared : gmap TensorVariable expr) (make_shared : bool) (h : nat) :
  vars ≠ [] →
  NoDup (name <$> vars) →
  (∀ u e w, shared !! u = Some e → Var w ∉ leaves e) →
  (∀ v, v ∈ inputvars (Many xs) → v ∈ vars ∨ is_Some (shared !! v)) →
  ∃ xs' inarray,
    join_nonshared_inputs xs vars shared make_shared h = (OK (xs', inarray), S h) ∧
    ∀ u, u ∈ inputvars (Many xs') → make_shared = false ∧ inarray = Var u.
Proof. apply join_inputs_eliminated. Qed.

(** X11. [make_shared_replacements] and [join_nonshared_inputs] together,
    for [vars] not empty: with [shared] the replacements made for the
    variables of the model other than [vars], graphs over the variables of
    the model and [vars] are rewritten into graphs whose only input
    variable is the flat input (none with [make_shared]); every other
    variable of the model has become a shared variable. *)
Theorem join_with_shared_replacements (xs : list expr) (vars : list TensorVariable)
    (model : Model) (make_shared : bool) (h0 h : nat) :
  vars ≠ [] →
  NoDup (name <$> vars) →
  (∀ v, v ∈ inputvars (Many xs) → v ∈ vars ∨ v ∈ model_vars model) →
  ∃ xs' inarray,
    join_nonshared_inputs xs vars
      (Shared <$> (make_shared_replacements vars model h0).1) make_shared h
      = (OK (xs', inarray), S h) ∧
    ∀ u, u ∈ inputvars (Many xs') → make_shared = false ∧ inarray = Var u.
Proof.
  intros Hvars Hnd Hinputs. apply join_inputs_eliminated; [done | done | |].
  - intros u e w Hu. rewrite lookup_fmap in Hu.
    destruct ((make_shared_replacements vars model h0).1 !! u) as [s|]; [|done].
    injection Hu as <-. simpl. by intros ?%list_elem_of_singleton.
  - intros v Hv. destruct (decide (v ∈ vars)) as [Hin|Hnotin]; [by left|].
    right. destruct (Hinputs v Hv) as [?|Hmodel]; [done|].
    destruct (make_shared_replacements_lookup vars model h0 v Hmodel Hnotin) as [s Hs].
    rewrite lookup_fmap, Hs. by eexists.
Qed.

End JoinInputs.

(** ** Joining the inputs: the replacement of each variable *)

Section JoinClaims.
Context {Th : theano_api}.

(** C3, as the code has it.  The variables are looked up by name, not by
    node.  For [vars] not empty, a variable that [shared] does not map is
    replaced exactly when it is the last variable of [vars] with its name:
    it is then mapped to its own slice of the flat input, and the rewritten
    graphs are the given ones cloned with that mapping; a variable of
    [vars] that a later one shares its name with is left as it is.  The
    slices of two positions do not overlap, and with names that differ from
    one another every variable of [vars] is the last of its name. *)
Theorem join_nonshared_inputs_by_name (xs : list expr) (vars : list TensorVariable)
    (shared : gmap TensorVariable expr) (make_shared : bool) (h : nat) :
  vars ≠ [] →
  ∃ replace inarray,
    join_nonshared_inputs xs vars shared make_shared h =
      (OK ((λ x, clone x replace) <$> xs, inarray), S h) ∧
    (∀ i v, last_of_its_name vars i v → shared !! v = None →
       replace !! v = Some (slice_of inarray (offset vars i) v) ∧
       clone (Var v) replace = slice_of inarray (offset vars i) v) ∧
    (∀ v, (∀ i, ¬ last_of_its_name vars i v) → shared !! v = None →
       replace !! v = None ∧ clone (Var v) replace = Var v) ∧
    (∀ i j v w, i < j → vars !! i = Some v → vars !! j = Some w →
       offset vars i + dsize v ≤ offset vars j) ∧
    (NoDup (name <$> vars) → ∀ i v, vars !! i = Some v → last_of_its_name vars i v).
Proof.
  intros Hne.
  destruct (join_nonshared_inputs_items xs vars shared make_shared h Hne)
    as (items & Hitems & _ & Hjoin).
  set (inarray := (make_inarray (tt_concatenate ((λ var, ravel (Var var)) <$> vars) 0)
                     make_shared h).1) in *.
  exists (dict_update (dict_of items) shared), inarray.
  split; [exact Hjoin|]. split_and!.
  - intros i v Hlast Hsh.
    assert (dict_update (dict_of items) shared !! v
            = Some (slice_of inarray (offset vars i) v)) as Hr.
    { unfold dict_update. rewrite lookup_union_r by done.
      apply (dict_of_items_lookup _ _ _ _ _ Hitems). by exists i. }
    split; [done|]. simpl. by rewrite Hr.
  - intros v Hnone Hsh.
    assert (dict_update (dict_of items) shared !! v = None) as Hr.
    { unfold dict_update. rewrite lookup_union_r by done.
      destruct (dict_of items !! v) as [r|] eqn:Hd; [|done].
      apply (dict_of_items_lookup _ _ _ _ _ Hitems) in Hd as (i & Hi & _).
      exfalso. by apply (Hnone i). }
    split; [done|]. simpl. by rewrite Hr.
  - intros i j v w Hij Hi Hj. rewrite <-(offset_S _ _ _ Hi). apply offset_mono. lia.
  - intros Hnd i v Hi. by apply NoDup_names_last.
Qed.

(** C4. For every variable [v] of [vars], at position [i], the replacement
    that [join_nonshared_inputs] builds for it is the slice of the flat
    input that starts where the variables before it end and is as long as
    [v], reshaped to the shape of [v] and cast to its dtype; when the
    shape of [v] is the empty tuple, element 0 of the slice is taken in
    place of the reshape, and the cast is made on it.  The replacement is
    filed under the variable that [get_var] holds for the name of [v],
    which is [v] itself when no later variable has its name, and the
    graphs returned are the given ones cloned with the dictionary of these
    replacements, updated with [shared]. *)
Theorem replacement_built (xs : list expr) (vars : list TensorVariable)
    (shared : gmap TensorVariable expr) (make_shared : bool) (h i : nat)
    (v : TensorVariable) :
  vars !! i = Some v →
  ∃ items inarray key,
    replace_items (get_var_of vars) inarray (vmap (ArrayOrdering_init vars)) = OK items ∧
    join_nonshared_inputs xs vars shared make_shared h =
      (OK ((λ x, clone x (dict_update (dict_of items) shared)) <$> xs, inarray), S h) ∧
    items !! i = Some (key, slice_of inarray (offset vars i) v) ∧
    get_var_of vars !! name v = Some key ∧
    slice_of inarray (offset vars i) v =
      Apply (Cast (var_dtype v))
        [match dshape v with
         | [] => Apply (SubtensorConst 0)
                   [Apply (SubtensorSlice (offset vars i) (offset vars i + dsize v)) [inarray]]
         | _ :: _ => Apply (Reshape (dshape v))
                   [Apply (SubtensorSlice (offset vars i) (offset vars i + dsize v)) [inarray]]
         end] ∧
    (last_of_its_name vars i v →
       key = v ∧
       (shared !! v = None →
        dict_update (dict_of items) shared !! v
          = Some (slice_of inarray (offset vars i) v) ∧
        clone (Var v) (dict_update (dict_of items) shared)
          = slice_of inarray (offset vars i) v)).
Proof.
  intros Hi.
  assert (vars ≠ []) as Hne by (intros ->; done).
  destruct (join_nonshared_inputs_items xs vars shared make_shared h Hne)
    as (items & Hitems & _ & Hjoin).
  set (inarray := (make_inarray (tt_concatenate ((λ var, ravel (Var var)) <$> vars) 0)
                     make_shared h).1) in *.
  assert (is_Some (get_var_of vars !! name v)) as [key Hkey]
    by (by eapply get_var_of_is_Some, list_elem_of_lookup_2).
  assert (items !! i = Some (key, slice_of inarray (offset vars i) v)) as Hitem.
  { apply (replace_items_lookup _ _ _ _ _ _ Hitems).
    apply get_var_of_last in Hkey as (l & Hl & Hname).
    exists v, l. split_and!; done. }
  exists items, inarray, key. split_and!; [done | done | done | done | |].
  - unfold slice_of, reshape_t. by destruct (dshape v).
  - intros Hlast.
    assert (key = v) as ->.
    { apply get_var_of_last in Hkey as (l & Hl & Hname).
      by destruct (last_of_its_name_unique _ _ _ _ _ Hl Hlast Hname). }
    split; [done|]. intros Hsh.
    assert (dict_update (dict_of items) shared !! v
            = Some (slice_of inarray (offset vars i) v)) as Hr.
    { unfold dict_update. rewrite lookup_union_r by done.
      apply (dict_of_items_lookup _ _ _ _ _ Hitems). by exists i. }
    split; [done|]. simpl. by rewrite Hr.
Qed.

End JoinClaims.

Lemma join_nonshared_inputs_by_name_witness :
  example_vars ≠ [] ∧
  ∃ replace inarray,
    join_nonshared_inputs (Th:=symbolic_theano) (Var <$> example_vars) example_vars
      ∅ false 7 =
      (OK ((λ x, clone x replace) <$> (Var <$> example_vars), inarray), 8) ∧
    (∀ i v, last_of_its_name example_vars i v →
       (∅ : gmap TensorVariable expr) !! v = None →
       replace !! v = Some (slice_of inarray (offset example_vars i) v) ∧
       clone (Var v) replace = slice_of inarray (offset example_vars i) v) ∧
    (∀ v, (∀ i, ¬ last_of_its_name example_vars i v) →
       (∅ : gmap TensorVariable expr) !! v = None →
       replace !! v = None ∧ clone (Var v) replace = Var v) ∧
    (∀ i j v w, i < j → example_vars !! i = Some v → example_vars !! j = Some w →
       offset example_vars i + dsize v ≤ offset example_vars j) ∧
    (NoDup (name <$> example_vars) →
     ∀ i v, example_vars !! i = Some v → last_of_its_name example_vars i v).
Proof.
  assert (Hne : example_vars ≠ []) by (unfold example_vars; intros H; discriminate H).
  split; [exact Hne|].
  apply (join_nonshared_inputs_by_name (Th:=symbolic_theano) (Var <$> example_vars)
           example_vars ∅ false 7 Hne).
Defined.

Lemma replacement_built_witness :
  [example_var 1 "x" [2]; example_var 2 "y" []] !! 1 = Some (example_var 2 "y" []) ∧
  ∃ items inarray key,
    replace_items (get_var_of [example_var 1 "x" [2]; example_var 2 "y" []]) inarray
      (vmap (ArrayOrdering_init [example_var 1 "x" [2]; example_var 2 "y" []])) = OK items ∧
    join_nonshared_inputs (Th:=symbolic_theano) [Var (example_var 2 "y" [])]
      [example_var 1 "x" [2]; example_var 2 "y" []] ∅ false 7 =
      (OK ((λ x, clone x (dict_update (dict_of items) ∅)) <$> [Var (example_var 2 "y" [])],
           inarray), 8) ∧
    items !! 1 = Some (key, slice_of inarray
                              (offset [example_var 1 "x" [2]; example_var 2 "y" []] 1)
                              (example_var 2 "y" [])) ∧
    get_var_of [example_var 1 "x" [2]; example_var 2 "y" []] !! name (example_var 2 "y" [])
      = Some key ∧
    slice_of inarray (offset [example_var 1 "x" [2]; example_var 2 "y" []] 1)
      (example_var 2 "y" []) =
      Apply (Cast (var_dtype (example_var 2 "y" [])))
        [match dshape (example_var 2 "y" []) with
         | [] => Apply (SubtensorConst 0)
                   [Apply (SubtensorSlice
                             (offset [example_var 1 "x" [2]; example_var 2 "y" []] 1)
                             (offset [example_var 1 "x" [2]; example_var 2 "y" []] 1
                              + dsize (example_var 2 "y" []))) [inarray]]
         | _ :: _ => Apply (Reshape (dshape (example_var 2 "y" [])))
                   [Apply (SubtensorSlice
                             (offset [example_var 1 "x" [2]; example_var 2 "y" []] 1)
                             (offset [example_var 1 "x" [2]; example_var 2 "y" []] 1
                              + dsize (example_var 2 "y" []))) [inarray]]
         end] ∧
    (last_of_its_name [example_var 1 "x" [2]; example_var 2 "y" []] 1 (example_var 2 "y" []) →
       key = example_var 2 "y" [] ∧
       ((∅ : gmap TensorVariable expr) !! example_var 2 "y" [] = None →
        dict_update (dict_of items) ∅ !! example_var 2 "y" []
          = Some (slice_of inarray (offset [example_var 1 "x" [2]; example_var 2 "y" []] 1)
                    (example_var 2 "y" [])) ∧
        clone (Var (example_var 2 "y" [])) (dict_update (dict_of items) ∅)
          = slice_of inarray (offset [example_var 1 "x" [2]; example_var 2 "y" []] 1)
              (example_var 2 "y" []))).
Proof.
  split; [reflexivity|].
  apply (replacement_built (Th:=symbolic_theano) [Var (example_var 2 "y" [])]
           [example_var 1 "x" [2]; example_var 2 "y" []] ∅ false 7 1
           (example_var 2 "y" [])).
  reflexivity.
Defined.

(** The replacement of a scalar variable, as the function returns it. *)
Example join_scalar_variable :
  (join_nonshared_inputs (Th:=symbolic_theano) [Var (example_var 2 "y" [])]
     [example_var 1 "x" [2]; example_var 2 "y" []] ∅ true 7).1 =
  OK ([Apply (Cast "float64")
         [Apply (SubtensorConst 0)
            [Apply (SubtensorSlice 2 3)
               [Shared (mk_SharedVariable 7 "inarray" (mk_ndarray "float64" [0] []))]]]],
      Shared (mk_SharedVariable 7 "inarray" (mk_ndarray "float64" [0] []))).
Proof. vm_compute. reflexivity. Qed.

Example join_no_variables :
  join_nonshared_inputs (Th:=symbolic_theano) [Const example_a] [] ∅ false 7
  = (Raise (ValueError "Cannot join an empty list of tensors"), 7).
Proof. reflexivity. Qed.

Lemma example_names_NoDup :
  NoDup (name <$> [example_var 1 "x" [2]; example_var 2 "y" []]).
Proof.
  simpl. apply NoDup_cons. split.
  - intros Hin. apply list_elem_of_singleton in Hin. discriminate Hin.
  - apply NoDup_singleton.
Defined.

Lemma example_vars_not_empty :
  [example_var 1 "x" [2]; example_var 2 "y" []] ≠ [].
Proof. intros H. discriminate H. Defined.

Lemma example_sum_inputs (v : TensorVariable) :
  v ∈ inputvars (Many [Apply (Elemwise "add")
                         [Var (example_var 1 "x" [2]); Var (example_var 2 "y" [])]]) →
  v ∈ [example_var 1 "x" [2]; example_var 2 "y" []].
Proof.
  intros Hv.
  replace (inputvars (Many [Apply (Elemwise "add")
                              [Var (example_var 1 "x" [2]); Var (example_var 2 "y" [])]]))
    with [example_var 1 "x" [2]; example_var 2 "y" []] in Hv by (vm_compute; reflexivity).
  exact Hv.
Defined.

Lemma example_model_inputs (v : TensorVariable) :
  v ∈ inputvars (Many [Apply (Elemwise "add")
                         [Var (example_var 1 "x" [2]); Var (example_var 3 "z" [3])]]) →
  v ∈ [example_var 1 "x" [2]; example_var 2 "y" []] ∨
  v ∈ model_vars (mk_Model [example_var 1 "x" [2]; example_var 2 "y" [];
                            example_var 3 "z" [3]]).
Proof.
  intros Hv.
  replace (inputvars (Many [Apply (Elemwise "add")
                              [Var (example_var 1 "x" [2]); Var (example_var 3 "z" [3])]]))
    with [example_var 1 "x" [2]; example_var 3 "z" [3]] in Hv by (vm_compute; reflexivity).
  right. simpl. apply elem_of_cons in Hv as [->|Hv].
  - apply list_elem_of_here.
  - apply list_elem_of_singleton in Hv as ->.
    apply list_elem_of_further, list_elem_of_further, list_elem_of_here.
Defined.

Lemma join_nonshared_inputs_untouched_witness :
  [example_var 1 "x" [2]; example_var 2 "y" []] ≠ [] ∧
  [Var (example_var 3 "z" [3]); Var (example_var 1 "x" [2])] !! 0
    = Some (Var (example_var 3 "z" [3])) ∧
  ∃ xs' inarray,
    join_nonshared_inputs (Th:=symbolic_theano)
      [Var (example_var 3 "z" [3]); Var (example_var 1 "x" [2])]
      [example_var 1 "x" [2]; example_var 2 "y" []] ∅ false 7
      = (OK (xs', inarray), 8) ∧
    xs' !! 0 = Some (Var (example_var 3 "z" [3])).
Proof.
  split; [exact example_vars_not_empty|]. split; [reflexivity|].
  apply (join_nonshared_inputs_untouched (Th:=symbolic_theano)
           [Var (example_var 3 "z" [3]); Var (example_var 1 "x" [2])]
           [example_var 1 "x" [2]; example_var 2 "y" []] ∅ false 7 0
           (Var (example_var 3 "z" [3])) example_vars_not_empty).
  - reflexivity.
  - intros v Hv. simpl in Hv. apply list_elem_of_singleton in Hv.
    injection Hv as ->. split; [|apply lookup_empty].
    intros Hin. apply elem_of_cons in Hin as [Hin|Hin]; [discriminate Hin|].
    apply list_elem_of_singleton in Hin. discriminate Hin.
Defined.

Lemma join_nonshared_inputs_only_inarray_witness :
  [example_var 1 "x" [2]; example_var 2 "y" []] ≠ [] ∧
  NoDup (name <$> [example_var 1 "x" [2]; example_var 2 "y" []]) ∧
  ∃ xs' inarray,
    join_nonshared_inputs (Th:=symbolic_theano)
      [Apply (Elemwise "add") [Var (example_var 1 "x" [2]); Var (example_var 2 "y" [])]]
      [example_var 1 "x" [2]; example_var 2 "y" []] ∅ false 7
      = (OK (xs', inarray), 8) ∧
    ∀ u, u ∈ inputvars (Many xs') → false = false ∧ inarray = Var u.
Proof.
  split; [exact example_vars_not_empty|]. split; [exact example_names_NoDup|].
  apply (join_nonshared_inputs_only_inarray (Th:=symbolic_theano)
           [Apply (Elemwise "add") [Var (example_var 1 "x" [2]); Var (example_var 2 "y" [])]]
           [example_var 1 "x" [2]; example_var 2 "y" []] ∅ false 7
           example_vars_not_empty example_names_NoDup).
  - intros u e w Hu. rewrite lookup_empty in Hu. discriminate Hu.
  - intros v Hv. left. exact (example_sum_inputs v Hv).
Defined.

Lemma join_with_shared_replacements_witness :
  [example_var 1 "x" [2]; example_var 2 "y" []] ≠ [] ∧
  NoDup (name <$> [example_var 1 "x" [2]; example_var 2 "y" []]) ∧
  ∃ xs' inarray,
    join_nonshared_inputs (Th:=symbolic_theano)
      [Apply (Elemwise "add") [Var (example_var 1 "x" [2]); Var (example_var 3 "z" [3])]]
      [example_var 1 "x" [2]; example_var 2 "y" []]
      (Shared <$> (make_shared_replacements [example_var 1 "x" [2]; example_var 2 "y" []]
                     (mk_Model [example_var 1 "x" [2]; example_var 2 "y" [];
                                example_var 3 "z" [3]]) 4).1)
      true 7
      = (OK (xs', inarray), 8) ∧
    ∀ u, u ∈ inputvars (Many xs') → true = false ∧ inarray = Var u.
Proof.
  split; [exact example_vars_not_empty|]. split; [exact example_names_NoDup|].
  apply (join_with_shared_replacements (Th:=symbolic_theano)
           [Apply (Elemwise "add") [Var (example_var 1 "x" [2]); Var (example_var 3 "z" [3])]]
           [example_var 1 "x" [2]; example_var 2 "y" []]
           (mk_Model [example_var 1 "x" [2]; example_var 2 "y" []; example_var 3 "z" [3]])
           true 4 7 example_vars_not_empty example_names_NoDup).
  intros v Hv. exact (example_model_inputs v Hv).
Defined.

(** ** Shared replacements: how many are made *)

Lemma make_shared_replacements_dom (vars : list TensorVariable) (model : Model) (h : nat) :
  dom (make_shared_replacements vars model h).1
  = list_to_set (model_vars model) ∖ list_to_set vars.
Proof.
  unfold make_shared_replacements.
  set (othervars := list_to_set (model_vars model) ∖ list_to_set vars : gset TensorVariable).
  apply set_eq. intros v. rewrite elem_of_dom. unfold is_Some.
  setoid_rewrite (shared_of_lookup_Some _ _ _ _ (NoDup_elements othervars)).
  rewrite <-elem_of_elements, list_elem_of_lookup.
  split; [intros (s & i & ? & ?) | intros [i ?]]; eauto.
Qed.

(** X12. [make_shared_replacements] makes exactly one shared variable for
    each key of the mapping it returns, however often a variable is listed
    in the model or in [vars]: the next unused identity moves on by the
    number of keys. *)
Theorem make_shared_replacements_count (vars : list TensorVariable) (model : Model) (h : nat) :
  (make_shared_replacements vars model h).2
  = h + size (dom (make_shared_replacements vars model h).1).
Proof.
  rewrite make_shared_replacements_dom. unfold make_shared_replacements.
  by rewrite shared_of_counter.
Qed.

(** X13. When every variable of the model is in [vars] there is nothing to
    share: the mapping is empty and no shared variable is made. *)
Theorem make_shared_replacements_nothing (vars : list TensorVariable) (model : Model)
    (h : nat) :
  (∀ v, v ∈ model_vars model → v ∈ vars) →
  make_shared_replacements vars model h = (∅, h).
Proof.
  intros Hall. unfold make_shared_replacements.
  assert (list_to_set (model_vars model) ∖ list_to_set vars = (∅ : gset TensorVariable))
    as ->.
  { apply set_eq. intros v.
    rewrite elem_of_difference, !elem_of_list_to_set, elem_of_empty.
    split; [intros [Hm Hn]; by apply Hn, Hall | done]. }
  by rewrite elements_empty.
Qed.

Lemma make_shared_replacements_nothing_witness :
  (∀ v, v ∈ model_vars (mk_Model [example_var 1 "x" [2]; example_var 2 "y" []])
        → v ∈ [example_var 2 "y" []; example_var 1 "x" [2]; example_var 1 "x" [2]]) ∧
  make_shared_replacements
    [example_var 2 "y" []; example_var 1 "x" [2]; example_var 1 "x" [2]]
    (mk_Model [example_var 1 "x" [2]; example_var 2 "y" []]) 5 = (∅, 5).
Proof.
  assert (Hall : ∀ v,
    v ∈ model_vars (mk_Model [example_var 1 "x" [2]; example_var 2 "y" []])
    → v ∈ [example_var 2 "y" []; example_var 1 "x" [2]; example_var 1 "x" [2]]).
  { simpl. intros v Hv. apply elem_of_cons in Hv as [->|Hv].
    - apply list_elem_of_further, list_elem_of_here.
    - apply list_elem_of_singleton in Hv as ->. apply list_elem_of_here. }
  split; [exact Hall|].
  apply (make_shared_replacements_nothing
           [example_var 2 "y" []; example_var 1 "x" [2]; example_var 1 "x" [2]]
           (mk_Model [example_var 1 "x" [2]; example_var 2 "y" []]) 5 Hall).
Defined.

(** ** GeneratorOp: the declared type, setting the generator anew, the shortcut *)

Section GeneratorFurther.
Context {Da : data_api} {Np : numpy_api}.

Lemma bridge_step_tensortype (self self' : GeneratorOp) :
  bridge_step self self' →
  tensortype (generator self') = tensortype (generator self).
Proof.
  intros [op|op gen|op cfg].
  - unfold perform, DataGenerator_next.
    destruct (pending (generator op)) as [|x xs]; done.
  - unfold set_gen. destruct (as_DataGenerator gen) as [g|e]; [|done].
    by case_bool_decide.
  - unfold GeneratorOp_call, change_flags, Op_call. simpl.
    destruct (otypes op) eqn:Hot; done.
Qed.

(** X14. From [__init__] on, whatever is evaluated, set anew or called, the
    Op declares no input and one output type, and that output type is the
    tensor type of the generator in place, which is the one the Op was
    made with. *)
Theorem declared_types_kept (gen : gen_arg) (made self : GeneratorOp) :
  GeneratorOp_init gen = OK made →
  rtc bridge_step made self →
  itypes self = [] ∧
  otypes self = [tensortype (generator self)] ∧
  tensortype (generator self) = tensortype (generator made).
Proof.
  intros (_ & Hit & Hot & _)%GeneratorOp_init_OK Hsteps.
  induction Hsteps as [op|op1 op2 op3 Hstep Hsteps IH]; [done|].
  destruct (bridge_step_keeps _ _ Hstep) as (_ & Hit2 & Hot2).
  pose proof (bridge_step_tensortype _ _ Hstep) as Hty.
  destruct IH as (IH1 & IH2 & IH3); [congruence | congruence |].
  split_and!; [done | done | congruence].
Qed.

(** X15. After the generator is set anew to a source of the same tensor
    type, the evaluations yield the elements of the new source in order and
    then the sentinel the Op had before: [set_gen] does not make a new
    sentinel, so it keeps the shape of the sample the Op was made with,
    even when the sample of the new source has another shape. *)
Theorem set_gen_then_evaluations (self : GeneratorOp) (gen : gen_arg)
    (new : DataGenerator) (n : nat) :
  as_DataGenerator gen = OK new →
  tensortype new = tensortype (generator self) →
  (evaluations n (set_gen self gen).2).1 =
    OK (take n (pending new) ++ replicate (n - length (pending new)) (_nan self)).
Proof.
  intros Hgen Hty. unfold set_gen. rewrite Hgen.
  rewrite bool_decide_eq_true_2 by done. simpl.
  by rewrite evaluations_spec.
Qed.

(** X16. The shortcut [generator(gen)] raises what [GeneratorOp(gen)]
    raises; otherwise it returns the output of the node, of the tensor type
    of the generator and with its sample as test value, with the Op as
    [__init__] made it (no element taken from the source) and the
    configuration as it was. *)
Theorem generator_shortcut (gen : gen_arg) (cfg : config) :
  generator_ gen cfg =
    match GeneratorOp_init gen with
    | Raise e => (Raise e, cfg)
    | OK op =>
        (OK (mk_output_variable (tensortype (generator op))
               (Some (gen_test_value (generator op))) true, op), cfg)
    end.
Proof.
  unfold generator_. destruct (GeneratorOp_init gen) as [op|e] eqn:Hinit; [|done].
  apply GeneratorOp_init_OK in Hinit as (_ & _ & Hot & _).
  unfold GeneratorOp_call, change_flags, Op_call. simpl. by rewrite Hot.
Qed.

(** X18. A [GeneratorOp] made over a source, after anything that can
    happen to it, and [k] the number of elements its source has yet to
    yield: [n] evaluations in a row raise nothing; the first [k] yield these
    elements in order and every later one yields the sentinel; the source
    stays exhausted.  The sentinel has the dtype and the shape of the
    sample value the Op was made with, and in every cell what numpy stores
    there for not-a-number: not-a-number itself where numpy keeps it. *)
Theorem evaluations_then_stored_sentinel (gen : gen_arg) (made self : GeneratorOp)
    (n : nat) :
  GeneratorOp_init gen = OK made →
  rtc bridge_step made self →
  ∃ c,
    nan_as (arr_dtype (gen_test_value (generator made))) = OK c ∧
    _nan self = filled_like (gen_test_value (generator made)) c ∧
    (c = NaN → _nan self = nan_like (gen_test_value (generator made))) ∧
    arr_shape (_nan self) = arr_shape (gen_test_value (generator made)) ∧
    arr_dtype (_nan self) = arr_dtype (gen_test_value (generator made)) ∧
    (evaluations n self).1 =
      OK (take n (pending (generator self))
          ++ replicate (n - length (pending (generator self))) (_nan self)) ∧
    pending (generator (evaluations n self).2) = drop n (pending (generator self)).
Proof.
  intros Hinit Hsteps. rewrite evaluations_spec. simpl.
  apply GeneratorOp_init_OK in Hinit as (_ & _ & _ & c & Hc & Hnan).
  apply bridge_steps_keep in Hsteps as (-> & _ & _). rewrite Hnan.
  exists c. split_and!; [done | done | by intros -> | done..].
Qed.

End GeneratorFurther.

Lemma evaluations_then_stored_sentinel_witness :
  GeneratorOp_init (Da:=list_data) (Np:=float_numpy) (Plain (Da:=list_data) [example_a; example_b])
    = OK example_op ∧
  ∃ c,
    nan_as (numpy_api:=float_numpy) (arr_dtype (gen_test_value (generator example_op)))
      = OK c ∧
    _nan (perform example_op).2 = filled_like (gen_test_value (generator example_op)) c ∧
    (c = NaN →
     _nan (perform example_op).2 = nan_like (gen_test_value (generator example_op))) ∧
    arr_shape (_nan (perform example_op).2)
      = arr_shape (gen_test_value (generator example_op)) ∧
    arr_dtype (_nan (perform example_op).2)
      = arr_dtype (gen_test_value (generator example_op)) ∧
    (evaluations 3 (perform example_op).2).1 =
      OK (take 3 (pending (generator (perform example_op).2))
          ++ replicate (3 - length (pending (generator (perform example_op).2)))
               (_nan (perform example_op).2)) ∧
    pending (generator (evaluations 3 (perform example_op).2).2)
      = drop 3 (pending (generator (perform example_op).2)).
Proof.
  split; [reflexivity|].
  apply (evaluations_then_stored_sentinel (Da:=list_data) (Np:=float_numpy)
           (Plain (Da:=list_data) [example_a; example_b]) example_op
           (perform example_op).2 3).
  - reflexivity.
  - apply rtc_once. apply (step_perform (Da:=list_data) example_op).
Defined.

(** C5, where the code departs from it.  A source of bool arrays: the Op is
    made, the first evaluation yields the element, and every later one
    yields the sentinel without raising, but the sentinel is filled with
    [True], what numpy makes of not-a-number in a bool array, and no cell
    of it is not-a-number. *)
Lemma bool_stream_sentinel_not_nan :
  ∃ op,
    GeneratorOp_init (Da:=list_data) (Np:=float_numpy)
      (Plain (Da:=list_data) [bool_vector [true; false]]) = OK op ∧
    (evaluations 3 op).1 =
      OK [bool_vector [true; false]; bool_vector [true; true]; bool_vector [true; true]] ∧
    _nan op = bool_vector [true; true] ∧
    NaN ∉ arr_data (_nan op).
Proof.
  eexists. split; [reflexivity|]. split; [reflexivity|]. split; [reflexivity|].
  simpl. intros Hin.
  apply elem_of_cons in Hin as [Hin|Hin]; [discriminate Hin|].
  apply list_elem_of_singleton in Hin. discriminate Hin.
Qed.

Lemma declared_types_kept_witness :
  GeneratorOp_init (Da:=list_data) (Np:=float_numpy) (Plain (Da:=list_data) [example_a; example_b])
    = OK example_op ∧
  itypes (perform example_op).2 = [] ∧
  otypes (perform example_op).2 = [tensortype (generator (perform example_op).2)] ∧
  tensortype (generator (perform example_op).2) = tensortype (generator example_op).
Proof.
  split; [reflexivity|].
  apply (declared_types_kept (Da:=list_data) (Np:=float_numpy)
           (Plain (Da:=list_data) [example_a; example_b]) example_op (perform example_op).2).
  - reflexivity.
  - apply rtc_once. apply (step_perform (Da:=list_data) example_op).
Defined.

Lemma set_gen_then_evaluations_witness :
  as_DataGenerator (Da:=list_data) (Plain (Da:=list_data) [float_vector [7; 8; 9]%Z])
    = OK (mk_DataGenerator (float_vector [7; 8; 9]%Z) example_type
            [float_vector [7; 8; 9]%Z]) ∧
  (evaluations 3
     (set_gen (Da:=list_data) example_op
        (Plain (Da:=list_data) [float_vector [7; 8; 9]%Z])).2).1 =
    OK (take 3 (pending (mk_DataGenerator (float_vector [7; 8; 9]%Z) example_type
                           [float_vector [7; 8; 9]%Z]))
        ++ replicate (3 - length (pending (mk_DataGenerator (float_vector [7; 8; 9]%Z)
                                             example_type [float_vector [7; 8; 9]%Z])))
             (_nan example_op)).
Proof.
  split; [reflexivity|].
  apply (set_gen_then_evaluations (Da:=list_data) example_op
           (Plain (Da:=list_data) [float_vector [7; 8; 9]%Z])
           (mk_DataGenerator (float_vector [7; 8; 9]%Z) example_type
              [float_vector [7; 8; 9]%Z]) 3).
  - reflexivity.
  - reflexivity.
Defined.

(** The sentinel after the generator was set anew: the new source yields
    arrays of three elements, the sentinel still has two. *)
Example set_gen_keeps_sentinel_shape :
  (evaluations 2
     (set_gen (Da:=list_data) example_op
        (Plain (Da:=list_data) [float_vector [7; 8; 9]%Z])).2).1 =
    OK [float_vector [7; 8; 9]%Z; nan_like example_a] ∧
  arr_shape (float_vector [7; 8; 9]%Z) = [3] ∧
  arr_shape (nan_like example_a) = [2].
Proof. split_and!; reflexivity. Qed.
